(** * SseClient: the connection lifecycle of [src/app/page.tsx]

    A shallow embedding of the React component [SseClient]: its state
    ([useState] cells and [useRef] cells), the callbacks it installs on the
    [EventSource] it opens, the reconnect timer, and the side-channel
    [sendManual].  Every callback is a function from component state to
    component state; what the browser decides (whether the [EventSource]
    constructor throws, whether an error is fatal, what [fetch] answers)
    is an argument of the event that carries it. *)

From Stdlib Require Import ZArith List String Ascii Bool Lia DecimalString.
Import ListNotations.

Set Warnings "-register-all".

Local Open Scope string_scope.
Local Open Scope Z_scope.

(** ** JavaScript values *)

(** The values [JSON.parse] produces, which are also the values the [data]
    field of a record can hold ([data: any] in the source: a parsed value or
    a string).  A number is kept as the exact decimal [mant * 10^exp] its
    text denotes (the engine rounds it to a double).  An object is the list
    of its properties. *)
Inductive JSON : Type :=
| JNull
| JBool (b : bool)
| JNumber (mant : Z) (exp : Z)
| JString (s : string)
| JArray (items : list JSON)
| JObject (props : list (string * JSON)).

(** A thrown value: an [Error] with its [name] and [message]. *)
Record JSError : Type := mkError { err_name : string; err_message : string }.

(** [String(err)], that is [Error.prototype.toString]. *)
Definition String_of_error (e : JSError) : string :=
  if String.eqb (err_message e) "" then err_name e
  else if String.eqb (err_name e) "" then err_message e
  else err_name e ++ ": " ++ err_message e.

(** [String(n)] and [`${n}`] for an integral number. *)
Definition String_of_Z (n : Z) : string := NilZero.string_of_int (Z.to_int n).

(** ** [JSON.parse]

    A recursive-descent parser for the JSON grammar (ECMA-404), over the
    characters of the text.  A parser returns the value and the rest of the
    input, or the input at the point where it gave up. *)
Inductive presult (A : Type) : Type :=
| POk (a : A) (rest : list ascii)
| PFail (at_ : list ascii)
| PFuel.
Arguments POk {A} a rest.
Arguments PFail {A} at_.
Arguments PFuel {A}.

Definition dquote : ascii := "034"%char.
Definition backslash : ascii := "092"%char.

Definition is_ws (c : ascii) : bool :=
  match c with
  | " "%char | "009"%char | "010"%char | "013"%char => true
  | _ => false
  end.

Fixpoint skip_ws (s : list ascii) : list ascii :=
  match s with
  | c :: r => if is_ws c then skip_ws r else s
  | [] => []
  end.

Definition code (c : ascii) : Z := Z.of_N (N_of_ascii c).

Definition is_digit (c : ascii) : bool := (48 <=? code c) && (code c <=? 57).

Definition digit_val (c : ascii) : Z := code c - 48.

Definition hex_val (c : ascii) : option Z :=
  let n := code c in
  if (48 <=? n) && (n <=? 57) then Some (n - 48)
  else if (65 <=? n) && (n <=? 70) then Some (n - 55)
  else if (97 <=? n) && (n <=? 102) then Some (n - 87)
  else None.

Fixpoint span_digits (s : list ascii) : list ascii * list ascii :=
  match s with
  | c :: r =>
      if is_digit c then let '(d, r') := span_digits r in (c :: d, r')
      else ([], s)
  | [] => ([], [])
  end.

Definition Z_of_digits (d : list ascii) : Z :=
  fold_left (fun acc c => 10 * acc + digit_val c) d 0.

(** A literal name ([null], [true], [false]): the text must start with it. *)
Fixpoint parse_lit (lit s : list ascii) : presult unit :=
  match lit with
  | [] => POk tt s
  | l :: lit' =>
      match s with
      | c :: r => if Ascii.eqb c l then parse_lit lit' r else PFail s
      | [] => PFail []
      end
  end.

(** The input after the character [c], when it starts with [c]. *)
Definition eat (c : ascii) (s : list ascii) : option (list ascii) :=
  match s with
  | x :: r => if Ascii.eqb x c then Some r else None
  | [] => None
  end.

(** The fraction of a number: nothing, or a point and at least one digit. *)
Definition parse_frac (s : list ascii) : presult (list ascii) :=
  match eat "."%char s with
  | Some r =>
      let '(fd, r') := span_digits r in
      match fd with
      | [] => PFail r
      | _ => POk fd r'
      end
  | None => POk [] s
  end.

(** The digits of an exponent, after its e: an optional sign, and at least
    one digit. *)
Definition parse_exp_digits (s : list ascii) : presult Z :=
  let '(eneg, s1) :=
    match eat "+"%char s with
    | Some r => (false, r)
    | None =>
        match eat "-"%char s with
        | Some r => (true, r)
        | None => (false, s)
        end
    end in
  let '(ed, s2) := span_digits s1 in
  match ed with
  | [] => PFail s1
  | _ => POk (if eneg then - Z_of_digits ed else Z_of_digits ed) s2
  end.

(** The exponent of a number: nothing (that is 0), or e or E and its
    digits. *)
Definition parse_exp (s : list ascii) : presult Z :=
  match eat "e"%char s with
  | Some r => parse_exp_digits r
  | None =>
      match eat "E"%char s with
      | Some r => parse_exp_digits r
      | None => POk 0 s
      end
  end.

(** A number: an optional minus sign; an integer part that is 0 or starts
    with a non-zero digit; an optional fraction; an optional exponent. *)
Definition parse_number (s : list ascii) : presult JSON :=
  let '(neg, s1) :=
    match eat "-"%char s with
    | Some r => (true, r)
    | None => (false, s)
    end in
  let '(ipart, s2) :=
    match eat "0"%char s1 with
    | Some r => (["0"%char], r)
    | None => span_digits s1
    end in
  match ipart with
  | [] => PFail s1
  | _ =>
      match parse_frac s2 with
      | POk fd s3 =>
          match parse_exp s3 with
          | POk e s4 =>
              let mant := Z_of_digits (ipart ++ fd)%list in
              POk (JNumber (if neg then - mant else mant)
                     (e - Z.of_nat (List.length fd))) s4
          | PFail a => PFail a
          | PFuel => PFuel
          end
      | PFail a => PFail a
      | PFuel => PFuel
      end
  end.

(** The character an escape [\c] stands for ([\uXXXX] apart). *)
Definition simple_escape (c : ascii) : option ascii :=
  match c with
  | "034"%char => Some "034"%char
  | "092"%char => Some "092"%char
  | "/"%char => Some "/"%char
  | "b"%char => Some "008"%char
  | "f"%char => Some "012"%char
  | "n"%char => Some "010"%char
  | "r"%char => Some "013"%char
  | "t"%char => Some "009"%char
  | _ => None
  end.

Definition byte (n : Z) : ascii := ascii_of_N (Z.to_N n).

(** The code unit of a [\uXXXX] escape, written out in UTF-8 (a string is
    kept as its bytes; each escape is encoded by itself). *)
Definition utf8 (n : Z) : list ascii :=
  if n <? 128 then [byte n]
  else if n <? 2048 then [byte (192 + n / 64); byte (128 + n mod 64)]
  else [byte (224 + n / 4096); byte (128 + (n / 64) mod 64); byte (128 + n mod 64)].

Definition hex4 (h1 h2 h3 h4 : ascii) : option Z :=
  match hex_val h1, hex_val h2, hex_val h3, hex_val h4 with
  | Some a, Some b, Some c, Some d => Some (((a * 16 + b) * 16 + c) * 16 + d)
  | _, _, _, _ => None
  end.

(** The characters of a string, after its opening quote, up to and
    including the closing one; [acc] holds the characters read, last
    first. *)
Fixpoint parse_string_chars (s acc : list ascii) : presult string :=
  match s with
  | [] => PFail []
  | c :: r =>
      if Ascii.eqb c dquote then POk (string_of_list_ascii (rev acc)) r
      else if Ascii.eqb c backslash then
        match r with
        | [] => PFail []
        | e :: r' =>
            match simple_escape e with
            | Some x => parse_string_chars r' (x :: acc)
            | None =>
                if Ascii.eqb e "u"%char then
                  match r' with
                  | h1 :: h2 :: h3 :: h4 :: r'' =>
                      match hex4 h1 h2 h3 h4 with
                      | Some n => parse_string_chars r'' (rev (utf8 n) ++ acc)%list
                      | None => PFail r'
                      end
                  | _ => PFail r'
                  end
                else PFail r
            end
        end
      else if code c <? 32 then PFail s
      else parse_string_chars r (c :: acc)
  end.

(** Defining a property of an object: a later duplicate of a name
    replaces the value of the earlier one. *)
Fixpoint obj_set (k : string) (v : JSON) (props : list (string * JSON))
  : list (string * JSON) :=
  match props with
  | [] => [(k, v)]
  | (k', v') :: rest =>
      if String.eqb k' k then (k', v) :: rest else (k', v') :: obj_set k v rest
  end.

(** A value, then the elements of an array after its bracket, then the
    members of an object after its brace.  [fuel] bounds the depth of the
    calls. *)
Fixpoint parse_value (fuel : nat) (s : list ascii) : presult JSON :=
  match fuel with
  | O => PFuel
  | S fuel' =>
      match skip_ws s with
      | [] => PFail []
      | c :: r =>
          if Ascii.eqb c "{"%char then
            match eat "}"%char (skip_ws r) with
            | Some r' => POk (JObject []) r'
            | None =>
                match parse_members fuel' r [] with
                | POk ps r' => POk (JObject ps) r'
                | PFail a => PFail a
                | PFuel => PFuel
                end
            end
          else if Ascii.eqb c "["%char then
            match eat "]"%char (skip_ws r) with
            | Some r' => POk (JArray []) r'
            | None =>
                match parse_elements fuel' r [] with
                | POk vs r' => POk (JArray vs) r'
                | PFail a => PFail a
                | PFuel => PFuel
                end
            end
          else if Ascii.eqb c dquote then
            match parse_string_chars r [] with
            | POk str r' => POk (JString str) r'
            | PFail a => PFail a
            | PFuel => PFuel
            end
          else if Ascii.eqb c "t"%char then
            match parse_lit (list_ascii_of_string "true") (c :: r) with
            | POk _ r' => POk (JBool true) r'
            | PFail a => PFail a
            | PFuel => PFuel
            end
          else if Ascii.eqb c "f"%char then
            match parse_lit (list_ascii_of_string "false") (c :: r) with
            | POk _ r' => POk (JBool false) r'
            | PFail a => PFail a
            | PFuel => PFuel
            end
          else if Ascii.eqb c "n"%char then
            match parse_lit (list_ascii_of_string "null") (c :: r) with
            | POk _ r' => POk JNull r'
            | PFail a => PFail a
            | PFuel => PFuel
            end
          else parse_number (c :: r)
      end
  end

with parse_elements (fuel : nat) (s : list ascii) (acc : list JSON)
  : presult (list JSON) :=
  match fuel with
  | O => PFuel
  | S fuel' =>
      match parse_value fuel' s with
      | POk v r =>
          match eat ","%char (skip_ws r) with
          | Some r' => parse_elements fuel' r' (v :: acc)
          | None =>
              match eat "]"%char (skip_ws r) with
              | Some r' => POk (rev (v :: acc)) r'
              | None => PFail (skip_ws r)
              end
          end
      | PFail a => PFail a
      | PFuel => PFuel
      end
  end

with parse_members (fuel : nat) (s : list ascii) (acc : list (string * JSON))
  : presult (list (string * JSON)) :=
  match fuel with
  | O => PFuel
  | S fuel' =>
      match eat dquote (skip_ws s) with
      | Some r =>
          match parse_string_chars r [] with
          | POk k r1 =>
              match eat ":"%char (skip_ws r1) with
              | Some r2 =>
                  match parse_value fuel' r2 with
                  | POk v r3 =>
                      match eat ","%char (skip_ws r3) with
                      | Some r4 => parse_members fuel' r4 (obj_set k v acc)
                      | None =>
                          match eat "}"%char (skip_ws r3) with
                          | Some r4 => POk (obj_set k v acc) r4
                          | None => PFail (skip_ws r3)
                          end
                      end
                  | PFail a => PFail a
                  | PFuel => PFuel
                  end
              | None => PFail (skip_ws r1)
              end
          | PFail a => PFail a
          | PFuel => PFuel
          end
      | None => PFail (skip_ws s)
      end
  end.

(** The [SyntaxError] the engine throws for a text that is not JSON, with
    the engine's description of where it gave up. *)
Definition syntaxError (text at_ : list ascii) : JSError :=
  match at_ with
  | [] => mkError "SyntaxError" "Unexpected end of JSON input"
  | c :: _ =>
      mkError "SyntaxError"
        ("Unexpected token " ++ String c "" ++ " in JSON at position "
         ++ String_of_Z (Z.of_nat (List.length text - List.length at_)))
  end.

(** [JSON.parse(text)]: the value, or the error thrown.  A descent consumes
    a character at least every second call, so the fuel is never used up. *)
Definition JSON_parse (text : string) : JSError + JSON :=
  let s := list_ascii_of_string text in
  match parse_value (2 * List.length s + 2) s with
  | POk v r =>
      match skip_ws r with
      | [] => inr v
      | a => inl (syntaxError s a)
      end
  | PFail a => inl (syntaxError s a)
  | PFuel => inl (mkError "RangeError" "Maximum call stack size exceeded")
  end.

(** ** The component's data *)

(** The props of [SseClient] (source lines 12-20). *)
Record Props : Type := mkProps {
  url : string;
  token : string;
  reconnectOnError : bool
}.

(** The default props: [url = "/sse"], [token] empty, [reconnectOnError]. *)
Definition defaultProps : Props := mkProps "/sse" EmptyString true.

(** [EventSource.CONNECTING], [EventSource.OPEN], [EventSource.CLOSED]. *)
Definition CONNECTING : Z := 0.
Definition OPEN : Z := 1.
Definition CLOSED : Z := 2.

(** What the component can observe of an [EventSource]. *)
Record EventSource : Type := mkEventSource {
  es_url : string;
  withCredentials : bool;
  readyState : Z
}.

(** An element of [messages] (source lines 23-25):
    [{ id?: string; event?: string; data: any; raw?: string }]. *)
Record Message : Type := mkMessage {
  id : option string;
  event : option string;
  data : JSON;
  raw : option string
}.

(** The [MessageEvent] the [EventSource] hands to a listener: the type is
    the frame's event name, ["message"] when the frame names none. *)
Record MessageEvent : Type := mkMessageEvent {
  ev_type : string;
  ev_data : string;
  lastEventId : string
}.

(** A [fetch] call. *)
Record Request : Type := mkRequest {
  req_url : string;
  req_method : string;
  req_headers : list (string * string);
  req_body : JSON
}.

(** How a [fetch] and the reading of its body end: the promise rejects
    (a network error), or a response arrives with a status and a body
    text. *)
Inductive FetchOutcome : Type :=
| FetchRejected (err : JSError)
| FetchResponse (status : Z) (body : string).

(** The state of one mounted component: the [useState] cells, the two
    refs, and the effects that are still pending or already done (timers
    set by [setTimeout], in the order they were set; the URLs an
    [EventSource] was constructed with; the requests sent). *)
Record State : Type := mkState {
  connected : bool;
  statusText : string;
  messages : list Message;
  manualPayload : string;
  autoConnect : bool;
  attempts : Z;
  esRef : option EventSource;
  attemptsRef : Z;
  timers : list Z;
  opened : list string;
  requests : list Request
}.

Definition quoted (s : string) : string := String dquote (s ++ String dquote EmptyString).

(** The text the payload box starts with (source lines 26-28). *)
Definition initialPayload : string :=
  "{ " ++ quoted "msg" ++ ": " ++ quoted "hello from client" ++ " }".

(** The state at mount, before any effect has run (source lines 21-33). *)
Definition initialState : State :=
  {| connected := false; statusText := "idle"; messages := [];
     manualPayload := initialPayload; autoConnect := true; attempts := 0;
     esRef := None; attemptsRef := 0;
     timers := []; opened := []; requests := [] |}.

Definition setConnected (b : bool) (s : State) : State :=
  {| connected := b; statusText := statusText s; messages := messages s;
     manualPayload := manualPayload s; autoConnect := autoConnect s;
     attempts := attempts s; esRef := esRef s; attemptsRef := attemptsRef s;
     timers := timers s; opened := opened s; requests := requests s |}.

Definition setStatusText (t : string) (s : State) : State :=
  {| connected := connected s; statusText := t; messages := messages s;
     manualPayload := manualPayload s; autoConnect := autoConnect s;
     attempts := attempts s; esRef := esRef s; attemptsRef := attemptsRef s;
     timers := timers s; opened := opened s; requests := requests s |}.

(** [setMessages] with an updater function, as the source calls it. *)
Definition setMessages (f : list Message -> list Message) (s : State) : State :=
  {| connected := connected s; statusText := statusText s;
     messages := f (messages s);
     manualPayload := manualPayload s; autoConnect := autoConnect s;
     attempts := attempts s; esRef := esRef s; attemptsRef := attemptsRef s;
     timers := timers s; opened := opened s; requests := requests s |}.

Definition setManualPayload (v : string) (s : State) : State :=
  {| connected := connected s; statusText := statusText s; messages := messages s;
     manualPayload := v; autoConnect := autoConnect s;
     attempts := attempts s; esRef := esRef s; attemptsRef := attemptsRef s;
     timers := timers s; opened := opened s; requests := requests s |}.

Definition setAutoConnect (b : bool) (s : State) : State :=
  {| connected := connected s; statusText := statusText s; messages := messages s;
     manualPayload := manualPayload s; autoConnect := b;
     attempts := attempts s; esRef := esRef s; attemptsRef := attemptsRef s;
     timers := timers s; opened := opened s; requests := requests s |}.

Definition setAttempts (n : Z) (s : State) : State :=
  {| connected := connected s; statusText := statusText s; messages := messages s;
     manualPayload := manualPayload s; autoConnect := autoConnect s;
     attempts := n; esRef := esRef s; attemptsRef := attemptsRef s;
     timers := timers s; opened := opened s; requests := requests s |}.

(** [esRef.current = v]. *)
Definition set_esRef (v : option EventSource) (s : State) : State :=
  {| connected := connected s; statusText := statusText s; messages := messages s;
     manualPayload := manualPayload s; autoConnect := autoConnect s;
     attempts := attempts s; esRef := v; attemptsRef := attemptsRef s;
     timers := timers s; opened := opened s; requests := requests s |}.

(** [attemptsRef.current = n]. *)
Definition set_attemptsRef (n : Z) (s : State) : State :=
  {| connected := connected s; statusText := statusText s; messages := messages s;
     manualPayload := manualPayload s; autoConnect := autoConnect s;
     attempts := attempts s; esRef := esRef s; attemptsRef := n;
     timers := timers s; opened := opened s; requests := requests s |}.

Definition set_timers (t : list Z) (s : State) : State :=
  {| connected := connected s; statusText := statusText s; messages := messages s;
     manualPayload := manualPayload s; autoConnect := autoConnect s;
     attempts := attempts s; esRef := esRef s; attemptsRef := attemptsRef s;
     timers := t; opened := opened s; requests := requests s |}.

(** [setTimeout(callback, delay)]: the only callback the source ever
    schedules is the reconnect check of [onerror], so a pending timer is
    its delay. *)
Definition setTimeout (delay : Z) (s : State) : State :=
  set_timers (timers s ++ [delay]) s.

(** [new EventSource(u, ...)] returned: the construction is recorded. *)
Definition log_opened (u : string) (s : State) : State :=
  {| connected := connected s; statusText := statusText s; messages := messages s;
     manualPayload := manualPayload s; autoConnect := autoConnect s;
     attempts := attempts s; esRef := esRef s; attemptsRef := attemptsRef s;
     timers := timers s; opened := opened s ++ [u]; requests := requests s |}.

(** [fetch(...)] called: the request is sent. *)
Definition fetch (r : Request) (s : State) : State :=
  {| connected := connected s; statusText := statusText s; messages := messages s;
     manualPayload := manualPayload s; autoConnect := autoConnect s;
     attempts := attempts s; esRef := esRef s; attemptsRef := attemptsRef s;
     timers := timers s; opened := opened s; requests := requests s ++ [r] |}.

(** ** The component's functions *)

(** A URL with its query parameters apart. *)
Record URL : Type := mkURL { u_base : string; searchParams : list (string * string) }.

(** [searchParams.set(k, v)]. *)
Fixpoint searchParams_set (k v : string) (ps : list (string * string))
  : list (string * string) :=
  match ps with
  | [] => [(k, v)]
  | (k', v') :: rest =>
      if String.eqb k' k then (k', v) :: rest
      else (k', v') :: searchParams_set k v rest
  end.

Fixpoint query_string (ps : list (string * string)) : string :=
  match ps with
  | [] => EmptyString
  | [(k, v)] => k ++ "=" ++ v
  | (k, v) :: rest => k ++ "=" ++ v ++ "&" ++ query_string rest
  end.

Definition URL_toString (u : URL) : string :=
  match searchParams u with
  | [] => u_base u
  | ps => u_base u ++ "?" ++ query_string ps
  end.

(** [buildUrl] (source lines 35-42).  [origin] is [window.location.origin];
    [rnd] is [Math.floor(Math.random() * 1000000)].  The path of [url] is
    taken relative to the origin, without a query of its own, and the
    parameters are plain text. *)
Definition buildUrl (p : Props) (origin : string) (rnd : Z) : string :=
  let u := mkURL (origin ++ url p) [] in
  let u :=
    if String.eqb (token p) EmptyString then u
    else mkURL (u_base u) (searchParams_set "t" (token p) (searchParams u)) in
  let u := mkURL (u_base u) (searchParams_set "clientId" (String_of_Z rnd) (searchParams u)) in
  URL_toString u.

(** [const fullUrl = "http://localhost:3001"] (source line 44). *)
Definition fullUrl : string := "http://localhost:3001".

(** [pushMessage] (source lines 56-63): [[msg, ...m].slice(0, 200)]. *)
Definition pushMessage (msg : Message) (s : State) : State :=
  setMessages (fun m => firstn 200 (msg :: m)) s.

(** A record with only [event] and [data], [data] a string. *)
Definition note (ev text : string) : Message :=
  {| id := None; event := Some ev; data := JString text; raw := None |}.

(** [cleanup] (source lines 170-180).  [es.close()] acts on the handle
    only, and the handle is dropped from [esRef] right after. *)
Definition cleanup (s : State) : State :=
  let s :=
    match esRef s with
    | Some es => set_esRef None s
    | None => s
    end in
  let s := setConnected false s in
  setStatusText "closed" s.

(** [connect] (source lines 65-168), up to the point where the handlers
    are installed.  [ctor] is what [new EventSource] does: [None] when it
    returns, [Some err] when it throws [err]. *)
Definition connect (ctor : option JSError) (s : State) : State :=
  let s := cleanup s in
  let s := setStatusText "connecting..." s in
  let url := fullUrl ++ "/sse" in
  match ctor with
  | None =>
      let es := mkEventSource url false CONNECTING in
      set_esRef (Some es) (log_opened url s)
  | Some err =>
      let s := setStatusText "failed to create EventSource" s in
      pushMessage (note "__meta" (String_of_error err)) s
  end.

(** [es.onopen] (source lines 75-81). *)
Definition onopen (s : State) : State :=
  let s := set_attemptsRef 0 s in
  let s := setAttempts 0 s in
  let s := setConnected true s in
  let s := setStatusText "open" s in
  pushMessage (note "__meta" ("connected to " ++ fullUrl)) s.

(** [Math.min(30000, 1000 * Math.pow(2, Math.min(6, n)))] (source lines
    96-99), for the attempt count [n]. *)
Definition backoff (n : Z) : Z := Z.min 30000 (1000 * 2 ^ Z.min 6 n).

(** [Math.round(a / b)] for integers [a] and [b > 0]. *)
Definition Math_round_div (a b : Z) : Z := (2 * a + b) / (2 * b).

(** The callback [onerror] hands to [setTimeout] (source lines 101-109). *)
Definition reconnect_check (ctor : option JSError) (s : State) : State :=
  match esRef s with
  | None => connect ctor s
  | Some es => if readyState es =? CLOSED then connect ctor s else s
  end.

(** [es.onerror] (source lines 83-111). *)
Definition onerror (p : Props) (s : State) : State :=
  let s := setConnected false s in
  let s := setStatusText "error" s in
  let s := set_attemptsRef (attemptsRef s + 1) s in
  let s := setAttempts (attemptsRef s) s in
  let s := pushMessage
             (note "__meta" ("error (attempt " ++ String_of_Z (attemptsRef s) ++ ")")) s in
  if reconnectOnError p then
    let b := backoff (attemptsRef s) in
    let s := setStatusText ("retrying in " ++ String_of_Z (Math_round_div b 1000) ++ "s") s in
    setTimeout b s
  else s.

(** [JSON.parse] inside [try], the text kept when it throws. *)
Definition parse_or_keep (d : string) : JSON :=
  match JSON_parse d with
  | inr v => v
  | inl _ => JString d
  end.

(** [es.onmessage] (source lines 113-128); the [console.log] is left
    out. *)
Definition onmessage (e : MessageEvent) (s : State) : State :=
  pushMessage
    {| id := Some (lastEventId e); event := Some "message";
       data := parse_or_keep (ev_data e); raw := Some (ev_data e) |} s.

(** The listener for [tick] (source lines 131-139). *)
Definition ontick (e : MessageEvent) (s : State) : State :=
  pushMessage
    {| id := None; event := Some "tick";
       data := parse_or_keep (ev_data e); raw := Some (ev_data e) |} s.

(** The listener for [heartbeat] (source lines 143-146). *)
Definition onheartbeat (e : MessageEvent) (s : State) : State :=
  pushMessage
    {| id := None; event := Some "heartbeat";
       data := JString (ev_data e); raw := None |} s.

(** The listener for [update] (source lines 149-163). *)
Definition onupdate (e : MessageEvent) (s : State) : State :=
  pushMessage
    {| id := Some (lastEventId e); event := Some "update";
       data := parse_or_keep (ev_data e); raw := Some (ev_data e) |} s.

(** The [EventSource] dispatching an event built from a frame to the
    listeners [connect] installed: [onmessage] for the type ["message"], one
    listener each for ["tick"], ["heartbeat"] and ["update"], and the
    handlers [es.onopen] and [es.onerror], which are the listeners for the
    types ["open"] and ["error"] and so run for a frame of that name too;
    none for any other type. *)
Definition dispatchEvent (p : Props) (e : MessageEvent) (s : State) : State :=
  if String.eqb (ev_type e) "message" then onmessage e s
  else if String.eqb (ev_type e) "tick" then ontick e s
  else if String.eqb (ev_type e) "heartbeat" then onheartbeat e s
  else if String.eqb (ev_type e) "update" then onupdate e s
  else if String.eqb (ev_type e) "open" then onopen s
  else if String.eqb (ev_type e) "error" then onerror p s
  else s.

(** [sendManual] (source lines 182-195) up to its first [await]: the
    payload is parsed, and the request is sent only when that returned.
    The request holds the parsed value, which [JSON.stringify] writes out
    as its body. *)
Definition sendManual (s : State) : State :=
  match JSON_parse (manualPayload s) with
  | inr body =>
      fetch (mkRequest (fullUrl ++ "/broadcast") "POST"
               [("Content-Type", "application/json")] body) s
  | inl err => pushMessage (note "manual-send-error" (String_of_error err)) s
  end.

(** [sendManual] from its first [await] on: [fetch] and [res.json()]
    settle with [o]. *)
Definition sendManual_settled (o : FetchOutcome) (s : State) : State :=
  match o with
  | FetchRejected err => pushMessage (note "manual-send-error" (String_of_error err)) s
  | FetchResponse _ body =>
      match JSON_parse body with
      | inr json =>
          pushMessage
            {| id := None; event := Some "manual-send-result"; data := json; raw := None |} s
      | inl err => pushMessage (note "manual-send-error" (String_of_error err)) s
      end
  end.

(** The mount effect (source lines 46-54). *)
Definition mountEffect (ctor : option JSError) (s : State) : State :=
  if autoConnect s then connect ctor s else s.

(** ** The component as a transition system *)

(** A frame as the stream carries it: an optional [id:] field, an optional
    [event:] field, and the [data:] payload. *)
Record EventFrame : Type := mkEventFrame {
  fr_id : option string;
  fr_eventName : option string;
  fr_rawPayload : string
}.

(** The event the [EventSource] builds from a frame: the type is the
    frame's event name, ["message"] when the frame has none or an empty
    one; [lastEventId] is the frame's id, empty when it has none (the id
    an earlier frame of the stream set is not kept). *)
Definition toMessageEvent (f : EventFrame) : MessageEvent :=
  {| ev_type :=
       match fr_eventName f with
       | Some n => if String.eqb n EmptyString then "message" else n
       | None => "message"
       end;
     ev_data := fr_rawPayload f;
     lastEventId := match fr_id f with Some i => i | None => EmptyString end |}.

(** What can happen to a mounted component.  An event that may run
    [connect] carries what [new EventSource] does then. *)
Inductive Event : Type :=
| EvMount (ctor : option JSError)
| EvConnect (ctor : option JSError)
| EvDisconnect
| EvOpen
| EvError (fatal : bool)
| EvFrame (f : EventFrame)
| EvTimeout (i : nat) (ctor : option JSError)
| EvPayload (v : string)
| EvAutoConnect (b : bool)
| EvSend
| EvFetchSettled (o : FetchOutcome).

(** The browser changing [readyState] of the handle in [esRef], if any. *)
Definition transport_readyState (r : Z) (s : State) : State :=
  match esRef s with
  | Some es => set_esRef (Some (mkEventSource (es_url es) (withCredentials es) r)) s
  | None => s
  end.

Definition remove_nth {A : Type} (i : nat) (l : list A) : list A :=
  firstn i l ++ skipn (S i) l.

(** The [i]-th pending timer fires: it is no longer pending, and its
    callback runs. *)
Definition fire_timer (i : nat) (ctor : option JSError) (s : State) : State :=
  match nth_error (timers s) i with
  | Some _ => reconnect_check ctor (set_timers (remove_nth i (timers s)) s)
  | None => s
  end.

(** One event.  The buttons (source lines 226-237, 258-270), the payload
    box, the check box, and the callbacks the browser invokes; on [open]
    and [error] the browser has set [readyState] before the handler runs
    ([CLOSED] after a fatal error, [CONNECTING] when it retries by
    itself).  A browser invokes the callbacks of a handle only while the
    handle is not closed; here a callback may run at any time, so what holds
    of every sequence of events holds of the sequences a browser produces. *)
Definition step (p : Props) (e : Event) (s : State) : State :=
  match e with
  | EvMount ctor => mountEffect ctor s
  | EvConnect ctor => connect ctor s
  | EvDisconnect => cleanup s
  | EvOpen => onopen (transport_readyState OPEN s)
  | EvError fatal =>
      onerror p (transport_readyState (if fatal then CLOSED else CONNECTING) s)
  | EvFrame f => dispatchEvent p (toMessageEvent f) s
  | EvTimeout i ctor => fire_timer i ctor s
  | EvPayload v => setManualPayload v s
  | EvAutoConnect b => setAutoConnect b s
  | EvSend => sendManual s
  | EvFetchSettled o => sendManual_settled o s
  end.

(** A sequence of events, first to last. *)
Definition run (p : Props) (tr : list Event) (s : State) : State :=
  fold_left (fun s e => step p e s) tr s.

(** ** Vocabulary of the properties *)

(** [one_push m m']: [m'] is [m], or [m] with one record put in front and
    the list cut at 200. *)
Definition one_push (m m' : list Message) : Prop :=
  m' = m \/ exists r, m' = firstn 200 (r :: m).

(** [pushed m m']: [m'] holds the records of [m] with records put in front
    of them, one at a time and cut at 200 each time: the only way the
    component changes [messages]. *)
Inductive pushed (m : list Message) : list Message -> Prop :=
| pushed_none : pushed m m
| pushed_more r m' : pushed m m' -> pushed m (firstn 200 (r :: m')).

(** Records inserted one after the other, oldest first. *)
Definition pushAll (l : list Message) (s : State) : State :=
  fold_left (fun s m => pushMessage m s) l s.

(** The events that run [es.onopen]: the transport's [open], and a frame
    named open. *)
Definition is_open (e : Event) : bool :=
  match e with
  | EvOpen => true
  | EvFrame f => String.eqb (ev_type (toMessageEvent f)) "open"
  | _ => false
  end.

(** The events that run [es.onerror]: the transport's [error], and a frame
    named error. *)
Definition is_error (e : Event) : bool :=
  match e with
  | EvError _ => true
  | EvFrame f => String.eqb (ev_type (toMessageEvent f)) "error"
  | _ => false
  end.

(** How often [es.onerror] ran in a sequence of events. *)
Definition count_errors (tr : list Event) : Z :=
  Z.of_nat (List.length (filter is_error tr)).

(** [es.onopen] did not run in a sequence of events. *)
Definition no_open (tr : list Event) : Prop :=
  forallb (fun e => negb (is_open e)) tr = true.

(** The event types whose listener turns a frame into a record of that
    type: [onmessage] and the three [addEventListener] calls. *)
Definition listened (t : string) : bool :=
  String.eqb t "message" || String.eqb t "tick"
  || String.eqb t "heartbeat" || String.eqb t "update".

(** The records [0 .. n-1], one per insertion. *)
Definition numbered (n : nat) : list Message :=
  map (fun i => note "tick" (String_of_Z (Z.of_nat i))) (seq 0 n).

(** The text of the object with the one property [a], of value 1. *)
Definition a_is_1 : string := "{" ++ quoted "a" ++ ":1}".

(** ** Vocabulary of the further properties *)

(** The badge of the rendering (source line 207). *)
Definition badge (s : State) : string :=
  if connected s then "connected" else "disconnected".

(** The label a record is shown with (source line 283):
    [m.event ?? "message"]. *)
Definition label (m : Message) : string :=
  match event m with
  | Some e => e
  | None => "message"
  end.

(** The placeholder of the rendering is shown (source lines 277-279):
    [messages.length === 0]. *)
Definition noEventsYet (s : State) : bool :=
  match messages s with
  | [] => true
  | _ :: _ => false
  end.

(** A handle is tracked and its [readyState] is not [CLOSED]. *)
Definition live (s : State) : bool :=
  match esRef s with
  | Some es => negb (readyState es =? CLOSED)
  | None => false
  end.

(** A handle is tracked and its [readyState] is [OPEN]. *)
Definition tracked_open (s : State) : bool :=
  match esRef s with
  | Some es => readyState es =? OPEN
  | None => false
  end.

(** How many handles are tracked: 0 or 1. *)
Definition tracked (s : State) : nat :=
  match esRef s with
  | Some _ => 1%nat
  | None => 0%nat
  end.

(** What a browser can deliver in a state: [open] and [error] come from
    the tracked handle (any other handle was closed by [cleanup]) and only
    while it is not closed; a frame comes from it only once the connection
    is announced, while its [readyState] is [OPEN]; a timer fires only while
    it is pending.  Clicks and typing are always possible. *)
Definition deliverable (e : Event) (s : State) : bool :=
  match e with
  | EvOpen | EvError _ => live s
  | EvFrame _ => tracked_open s
  | EvTimeout i _ =>
      match nth_error (timers s) i with
      | Some _ => true
      | None => false
      end
  | _ => true
  end.

(** A sequence of events a browser can produce from a state. *)
Fixpoint browser_run (p : Props) (tr : list Event) (s : State) : bool :=
  match tr with
  | [] => true
  | e :: tr' => deliverable e s && browser_run p tr' (step p e s)
  end.

(** The calls of [es.close()] (source line 174) while an event is handled:
    one when [cleanup] runs with a handle in [esRef].  [cleanup] runs on a
    disconnect, at the start of every [connect], and so in the mount effect
    when it connects and in a timer's callback when it reconnects. *)
Definition closes (e : Event) (s : State) : nat :=
  match e with
  | EvDisconnect | EvConnect _ => tracked s
  | EvMount _ => if autoConnect s then tracked s else 0%nat
  | EvTimeout i _ =>
      match nth_error (timers s) i with
      | Some _ =>
          match esRef s with
          | Some es => if readyState es =? CLOSED then 1%nat else 0%nat
          | None => 0%nat
          end
      | None => 0%nat
      end
  | _ => 0%nat
  end.

(** The calls of [es.close()] over a sequence of events. *)
Fixpoint closes_in (p : Props) (tr : list Event) (s : State) : nat :=
  match tr with
  | [] => 0%nat
  | e :: tr' => (closes e s + closes_in p tr' (step p e s))%nat
  end.

(** The events that call [connect] by themselves: a click on Connect and
    the mount effect. *)
Definition is_connect (e : Event) : bool :=
  match e with
  | EvConnect _ | EvMount _ => true
  | _ => false
  end.

Definition is_send (e : Event) : bool :=
  match e with
  | EvSend => true
  | _ => false
  end.

(** Every text [setStatusText] is ever called with (source lines 22, 68,
    79, 85, 100, 165, 179), the retry texts for the delays of 2, 4, 8, 16
    and 30 seconds. *)
Definition statuses : list string :=
  [ "idle"; "connecting..."; "open"; "error";
    "retrying in 2s"; "retrying in 4s"; "retrying in 8s"; "retrying in 16s";
    "retrying in 30s"; "closed"; "failed to create EventSource" ].

(** A record as the component builds them: it names its event, and when
    it keeps the payload text in [raw], its [data] is that text decoded, or
    the text itself when it is not JSON. *)
Definition well_formed (m : Message) : Prop :=
  event m <> None
  /\ match raw m with
     | Some d => data m = parse_or_keep d
     | None => True
     end.

(** The request [sendManual] sends (source lines 185-189). *)
Definition broadcast_request (r : Request) : Prop :=
  req_url r = "http://localhost:3001/broadcast"
  /\ req_method r = "POST"
  /\ req_headers r = [("Content-Type", "application/json")].

(** While the flag is on, the status is the open one and both attempt
    counts are 0. *)
Definition flag_inv (s : State) : Prop :=
  connected s = true ->
  statusText s = "open" /\ attempts s = 0 /\ attemptsRef s = 0.

(** The attempt count is not negative, and the status text is one of
    [statuses], the plain error text only when [reconnectOnError] is off. *)
Definition status_inv (p : Props) (s : State) : Prop :=
  0 <= attemptsRef s
  /\ In (statusText s) statuses
  /\ (reconnectOnError p = true -> statusText s <> "error").

(** * Properties *)

Local Open Scope list_scope.

Arguments JSON_parse : simpl never.
Arguments String_of_Z : simpl never.
Arguments String_of_error : simpl never.
Arguments firstn : simpl never.
Arguments backoff : simpl never.

(** Unfolds the component's functions, then splits on what they test. *)
Ltac unfold_component :=
  unfold step, mountEffect, fire_timer, reconnect_check, connect, cleanup,
    dispatchEvent, onopen, onerror, onmessage, ontick, onheartbeat, onupdate,
    sendManual, sendManual_settled, transport_readyState, pushMessage, setTimeout.

Ltac split_cases :=
  repeat match goal with
         | |- context [match ?x with _ => _ end] => destruct x
         end.

(** ** [JSON.parse] is total *)

Section Parser.

Local Abbreviation len := (@List.length ascii).

Lemma skip_ws_length s : (len (skip_ws s) <= len s)%nat.
Proof.
  induction s as [|c s IH]; cbn [skip_ws]; [lia|].
  destruct (is_ws c); cbn [List.length] in *; lia.
Qed.

Lemma eat_length c s r : eat c s = Some r -> len s = S (len r).
Proof.
  destruct s as [|x s]; cbn [eat]; [discriminate|].
  destruct (Ascii.eqb x c); [|discriminate]. now intros [= ->].
Qed.

Lemma span_digits_length s : (len (snd (span_digits s)) <= len s)%nat.
Proof.
  induction s as [|c s IH]; cbn [span_digits]; [cbn; lia|].
  destruct (is_digit c); [|cbn; lia].
  destruct (span_digits s) as [d r]. cbn [snd List.length] in *. lia.
Qed.

Lemma parse_lit_length lit s u r :
  parse_lit lit s = POk u r -> (len r <= len s)%nat.
Proof.
  revert s; induction lit as [|l lit IH]; intros s; cbn [parse_lit].
  - intros [= _ ->]. lia.
  - destruct s as [|c s]; [discriminate|].
    destruct (Ascii.eqb c l); [|discriminate].
    intros H. apply IH in H. cbn [List.length]. lia.
Qed.

Lemma parse_lit_fuel lit s : parse_lit lit s <> PFuel.
Proof.
  revert s; induction lit as [|l lit IH]; intros s; cbn [parse_lit]; [discriminate|].
  destruct s as [|c s]; [discriminate|].
  destruct (Ascii.eqb c l); [apply IH | discriminate].
Qed.

Ltac eat_facts :=
  repeat match goal with
         | H : eat _ _ = Some _ |- _ => apply eat_length in H
         end.

Lemma parse_frac_length s fd r : parse_frac s = POk fd r -> (len r <= len s)%nat.
Proof.
  unfold parse_frac. intros H.
  destruct (eat "."%char s) as [r0|] eqn:E.
  - pose proof (span_digits_length r0) as L.
    destruct (span_digits r0) as [d r']. cbn [snd] in L.
    apply eat_length in E. destruct d; [discriminate|].
    injection H as _ <-. lia.
  - injection H as _ <-. lia.
Qed.

Lemma parse_frac_fuel s : parse_frac s <> PFuel.
Proof.
  unfold parse_frac. destruct (eat "."%char s); [|discriminate].
  destruct (span_digits l) as [[|d0 d] r']; discriminate.
Qed.

Lemma parse_exp_digits_length s e r :
  parse_exp_digits s = POk e r -> (len r <= len s)%nat.
Proof.
  unfold parse_exp_digits. intros H.
  destruct (eat "+"%char s) as [r0|] eqn:E1;
    [|destruct (eat "-"%char s) as [r0|] eqn:E2];
    match type of H with
    | context [span_digits ?x] =>
        pose proof (span_digits_length x) as L;
        destruct (span_digits x) as [[|d0 d] r']; [discriminate|];
        cbn [snd] in L; injection H as _ <-
    end; eat_facts; lia.
Qed.

Lemma parse_exp_digits_fuel s : parse_exp_digits s <> PFuel.
Proof.
  unfold parse_exp_digits.
  destruct (eat "+"%char s); [|destruct (eat "-"%char s)];
    match goal with
    | |- context [span_digits ?x] => destruct (span_digits x) as [[|d0 d] r']
    end; discriminate.
Qed.

Lemma parse_exp_length s e r : parse_exp s = POk e r -> (len r <= len s)%nat.
Proof.
  unfold parse_exp. intros H.
  destruct (eat "e"%char s) as [r0|] eqn:E1;
    [|destruct (eat "E"%char s) as [r0|] eqn:E2].
  - apply parse_exp_digits_length in H. eat_facts. lia.
  - apply parse_exp_digits_length in H. eat_facts. lia.
  - injection H as _ <-. lia.
Qed.

Lemma parse_exp_fuel s : parse_exp s <> PFuel.
Proof.
  unfold parse_exp.
  destruct (eat "e"%char s); [|destruct (eat "E"%char s)];
    try apply parse_exp_digits_fuel; discriminate.
Qed.

Lemma parse_number_length s v r : parse_number s = POk v r -> (len r <= len s)%nat.
Proof.
  unfold parse_number. intros H.
  destruct (eat "-"%char s) as [s1|] eqn:E1.
  - destruct (eat "0"%char s1) as [s2|] eqn:E2.
    + destruct (parse_frac s2) as [fd s3| |] eqn:F; try discriminate.
      destruct (parse_exp s3) as [e s4| |] eqn:X; try discriminate.
      injection H as _ <-.
      apply parse_frac_length in F. apply parse_exp_length in X. eat_facts. lia.
    + pose proof (span_digits_length s1) as L.
      destruct (span_digits s1) as [[|i0 ip] s2]; [discriminate|]. cbn [snd] in L.
      destruct (parse_frac s2) as [fd s3| |] eqn:F; try discriminate.
      destruct (parse_exp s3) as [e s4| |] eqn:X; try discriminate.
      injection H as _ <-.
      apply parse_frac_length in F. apply parse_exp_length in X. eat_facts. lia.
  - destruct (eat "0"%char s) as [s2|] eqn:E2.
    + destruct (parse_frac s2) as [fd s3| |] eqn:F; try discriminate.
      destruct (parse_exp s3) as [e s4| |] eqn:X; try discriminate.
      injection H as _ <-.
      apply parse_frac_length in F. apply parse_exp_length in X. eat_facts. lia.
    + pose proof (span_digits_length s) as L.
      destruct (span_digits s) as [[|i0 ip] s2]; [discriminate|]. cbn [snd] in L.
      destruct (parse_frac s2) as [fd s3| |] eqn:F; try discriminate.
      destruct (parse_exp s3) as [e s4| |] eqn:X; try discriminate.
      injection H as _ <-.
      apply parse_frac_length in F. apply parse_exp_length in X. eat_facts. lia.
Qed.

Lemma parse_number_fuel s : parse_number s <> PFuel.
Proof.
  unfold parse_number.
  destruct (eat "-"%char s) as [s1|];
    match goal with
    | |- context [eat "0"%char ?x] =>
        destruct (eat "0"%char x) as [s2|]; [|destruct (span_digits x) as [[|i0 ip] s2]]
    end; try discriminate;
    (pose proof (parse_frac_fuel s2); destruct (parse_frac s2) as [fd s3| |];
     [|discriminate|contradiction];
     pose proof (parse_exp_fuel s3); destruct (parse_exp s3) as [e s4| |];
     [discriminate|discriminate|contradiction]).
Qed.

Lemma parse_string_chars_length n :
  forall s acc k r,
    (len s <= n)%nat -> parse_string_chars s acc = POk k r -> (len r <= len s)%nat.
Proof.
  induction n as [|n IH]; intros s acc k r Hn H;
    (destruct s as [|c s]; [discriminate|]); cbn [List.length] in *; [lia|].
  cbn [parse_string_chars] in H.
  destruct (Ascii.eqb c dquote); [injection H as _ <-; lia|].
  destruct (Ascii.eqb c backslash).
  - destruct s as [|e s]; [discriminate|]. cbn [List.length] in *.
    destruct (simple_escape e); [apply IH in H; lia|].
    destruct (Ascii.eqb e "u"%char); [|discriminate].
    destruct s as [|h1 [|h2 [|h3 [|h4 s]]]]; try discriminate.
    destruct (hex4 h1 h2 h3 h4); [|discriminate].
    cbn [List.length] in *. apply IH in H; lia.
  - destruct (code c <? 32)%Z; [discriminate|]. apply IH in H; lia.
Qed.

Lemma parse_string_chars_fuel n :
  forall s acc, (len s <= n)%nat -> parse_string_chars s acc <> PFuel.
Proof.
  induction n as [|n IH]; intros s acc Hn;
    (destruct s as [|c s]; [discriminate|]); cbn [List.length] in *; [lia|].
  cbn [parse_string_chars].
  destruct (Ascii.eqb c dquote); [discriminate|].
  destruct (Ascii.eqb c backslash).
  - destruct s as [|e s]; [discriminate|]. cbn [List.length] in *.
    destruct (simple_escape e); [apply IH; lia|].
    destruct (Ascii.eqb e "u"%char); [|discriminate].
    destruct s as [|h1 [|h2 [|h3 [|h4 s]]]]; try discriminate.
    destruct (hex4 h1 h2 h3 h4); [|discriminate].
    cbn [List.length] in *. apply IH; lia.
  - destruct (code c <? 32)%Z; [discriminate|]. apply IH; lia.
Qed.

(** A parser never returns more input than it was given. *)
Lemma parse_length fuel :
  (forall s v r, parse_value fuel s = POk v r -> (len r <= len s)%nat)
  /\ (forall s acc vs r, parse_elements fuel s acc = POk vs r -> (len r <= len s)%nat)
  /\ (forall s acc ps r, parse_members fuel s acc = POk ps r -> (len r <= len s)%nat).
Proof.
  induction fuel as [|fuel (IHv & IHe & IHm)]; [repeat split; discriminate|].
  split; [|split].
  - intros s v r H. cbn [parse_value] in H.
    pose proof (skip_ws_length s) as Ls.
    destruct (skip_ws s) as [|c s1]; [discriminate|]. cbn [List.length] in Ls.
    pose proof (skip_ws_length s1) as Ls1.
    destruct (Ascii.eqb c "{"%char).
    { destruct (eat "}"%char (skip_ws s1)) eqn:E.
      - injection H as _ <-. eat_facts. lia.
      - destruct (parse_members fuel s1 []) eqn:M; try discriminate.
        injection H as _ <-. apply IHm in M. lia. }
    destruct (Ascii.eqb c "["%char).
    { destruct (eat "]"%char (skip_ws s1)) eqn:E.
      - injection H as _ <-. eat_facts. lia.
      - destruct (parse_elements fuel s1 []) eqn:M; try discriminate.
        injection H as _ <-. apply IHe in M. lia. }
    destruct (Ascii.eqb c dquote).
    { destruct (parse_string_chars s1 []) eqn:M; try discriminate.
      injection H as _ <-. apply (parse_string_chars_length (len s1)) in M; lia. }
    destruct (Ascii.eqb c "t"%char).
    { destruct (parse_lit _ (c :: s1)) eqn:M; try discriminate.
      injection H as _ <-. apply parse_lit_length in M. cbn [List.length] in M. lia. }
    destruct (Ascii.eqb c "f"%char).
    { destruct (parse_lit _ (c :: s1)) eqn:M; try discriminate.
      injection H as _ <-. apply parse_lit_length in M. cbn [List.length] in M. lia. }
    destruct (Ascii.eqb c "n"%char).
    { destruct (parse_lit _ (c :: s1)) eqn:M; try discriminate.
      injection H as _ <-. apply parse_lit_length in M. cbn [List.length] in M. lia. }
    apply parse_number_length in H. cbn [List.length] in H. lia.
  - intros s acc vs r H. cbn [parse_elements] in H.
    destruct (parse_value fuel s) as [v r0| |] eqn:V; try discriminate.
    apply IHv in V. pose proof (skip_ws_length r0) as L0.
    destruct (eat ","%char (skip_ws r0)) as [r1|] eqn:E1.
    + apply IHe in H. eat_facts. lia.
    + destruct (eat "]"%char (skip_ws r0)) as [r1|] eqn:E2; [|discriminate].
      injection H as _ <-. eat_facts. lia.
  - intros s acc ps r H. cbn [parse_members] in H.
    pose proof (skip_ws_length s) as Ls.
    destruct (eat dquote (skip_ws s)) as [r0|] eqn:E0; [|discriminate].
    destruct (parse_string_chars r0 []) as [k r1| |] eqn:K; try discriminate.
    apply (parse_string_chars_length (len r0)) in K; [|lia].
    pose proof (skip_ws_length r1) as L1.
    destruct (eat ":"%char (skip_ws r1)) as [r2|] eqn:E2; [|discriminate].
    destruct (parse_value fuel r2) as [v r3| |] eqn:V; try discriminate.
    apply IHv in V. pose proof (skip_ws_length r3) as L3.
    destruct (eat ","%char (skip_ws r3)) as [r4|] eqn:E4.
    + apply IHm in H. eat_facts. lia.
    + destruct (eat "}"%char (skip_ws r3)) as [r4|] eqn:E5; [|discriminate].
      injection H as _ <-. eat_facts. lia.
Qed.

(** Two units of fuel for each character, and one more, are enough. *)
Lemma parse_fuel fuel :
  (forall s, (2 * len s + 1 <= fuel)%nat -> parse_value fuel s <> PFuel)
  /\ (forall s acc, (2 * len s + 2 <= fuel)%nat -> parse_elements fuel s acc <> PFuel)
  /\ (forall s acc, (2 * len s + 2 <= fuel)%nat -> parse_members fuel s acc <> PFuel).
Proof.
  induction fuel as [|fuel (IHv & IHe & IHm)]; [repeat split; intros; lia|].
  split; [|split].
  - intros s Hf. cbn [parse_value].
    pose proof (skip_ws_length s) as Ls.
    destruct (skip_ws s) as [|c s1]; [discriminate|]. cbn [List.length] in Ls.
    destruct (Ascii.eqb c "{"%char).
    { destruct (eat "}"%char (skip_ws s1)); [discriminate|].
      pose proof (IHm s1 []) as M.
      destruct (parse_members fuel s1 []); try discriminate.
      exfalso. apply M; [lia|reflexivity]. }
    destruct (Ascii.eqb c "["%char).
    { destruct (eat "]"%char (skip_ws s1)); [discriminate|].
      pose proof (IHe s1 []) as M.
      destruct (parse_elements fuel s1 []); try discriminate.
      exfalso. apply M; [lia|reflexivity]. }
    destruct (Ascii.eqb c dquote).
    { pose proof (parse_string_chars_fuel (len s1) s1 [] (le_n _)) as M.
      destruct (parse_string_chars s1 []); try discriminate. now exfalso. }
    destruct (Ascii.eqb c "t"%char).
    { pose proof (parse_lit_fuel (list_ascii_of_string "true") (c :: s1)) as M.
      destruct (parse_lit _ (c :: s1)); try discriminate. now exfalso. }
    destruct (Ascii.eqb c "f"%char).
    { pose proof (parse_lit_fuel (list_ascii_of_string "false") (c :: s1)) as M.
      destruct (parse_lit _ (c :: s1)); try discriminate. now exfalso. }
    destruct (Ascii.eqb c "n"%char).
    { pose proof (parse_lit_fuel (list_ascii_of_string "null") (c :: s1)) as M.
      destruct (parse_lit _ (c :: s1)); try discriminate. now exfalso. }
    apply parse_number_fuel.
  - intros s acc Hf. cbn [parse_elements].
    pose proof (IHv s) as V. pose proof (proj1 (parse_length fuel) s) as L.
    destruct (parse_value fuel s) as [v r0| |]; [|discriminate|exfalso; apply V; [lia|reflexivity]].
    specialize (L v r0 eq_refl). pose proof (skip_ws_length r0) as L0.
    destruct (eat ","%char (skip_ws r0)) as [r1|] eqn:E1.
    + apply IHe. eat_facts. lia.
    + destruct (eat "]"%char (skip_ws r0)); discriminate.
  - intros s acc Hf. cbn [parse_members].
    pose proof (skip_ws_length s) as Ls.
    destruct (eat dquote (skip_ws s)) as [r0|] eqn:E0; [|discriminate].
    pose proof (parse_string_chars_fuel (len r0) r0 [] (le_n _)) as KF.
    destruct (parse_string_chars r0 []) as [k r1| |] eqn:K;
      [|discriminate|now exfalso].
    apply (parse_string_chars_length (len r0)) in K; [|lia].
    pose proof (skip_ws_length r1) as L1.
    destruct (eat ":"%char (skip_ws r1)) as [r2|] eqn:E2; [|discriminate].
    pose proof (IHv r2) as V. pose proof (proj1 (parse_length fuel) r2) as L.
    eat_facts.
    destruct (parse_value fuel r2) as [v r3| |]; [|discriminate|exfalso; apply V; [lia|reflexivity]].
    specialize (L v r3 eq_refl). pose proof (skip_ws_length r3) as L3.
    destruct (eat ","%char (skip_ws r3)) as [r4|] eqn:E4.
    + apply IHm. eat_facts. lia.
    + destruct (eat "}"%char (skip_ws r3)); discriminate.
Qed.

(** [JSON.parse] returns a value or throws a [SyntaxError]: the descent
    never runs out of fuel. *)
Lemma JSON_parse_total text :
  (exists v, JSON_parse text = inr v)
  \/ (exists at_, JSON_parse text = inl (syntaxError (list_ascii_of_string text) at_)).
Proof.
  unfold JSON_parse.
  pose proof (proj1 (parse_fuel (2 * len (list_ascii_of_string text) + 2))
                (list_ascii_of_string text)) as F.
  destruct (parse_value _ (list_ascii_of_string text)) as [v r|a|].
  - destruct (skip_ws r) as [|c r'] eqn:E; [left; now exists v|].
    right. now exists (c :: r').
  - right. now exists a.
  - exfalso. apply F; [lia|reflexivity].
Qed.

End Parser.

(** ** The event buffer *)

Create HintDb buffer.

Section Buffer.

Variable p : Props.

(** Truncating twice, with records put in front in between, is
    truncating once. *)
Lemma firstn_app_firstn (A : Type) (a l : list A) (n m : nat) :
  (n <= m)%nat -> firstn n (a ++ firstn m l) = firstn n (a ++ l).
Proof.
  revert n m; induction a as [|x a IH]; intros n m Hnm; cbn [app].
  - rewrite firstn_firstn. now rewrite Nat.min_l.
  - destruct n as [|n]; [reflexivity|].
    rewrite !firstn_cons. f_equal. apply IH. lia.
Qed.

Lemma pushed_trans m1 m2 m3 : pushed m1 m2 -> pushed m2 m3 -> pushed m1 m3.
Proof. intros H12 H23; induction H23; [assumption | now constructor]. Qed.

Lemma pushed_explicit m m' :
  pushed m m' -> m' = m \/ exists added, m' = firstn 200 (added ++ m).
Proof.
  induction 1 as [|r m' _ [-> | [added ->]]].
  - now left.
  - right. now exists [r].
  - right. exists (r :: added).
    change (r :: firstn 200 (added ++ m)) with ([r] ++ firstn 200 (added ++ m)).
    now rewrite firstn_app_firstn.
Qed.

Lemma pushed_length m m' :
  pushed m m' -> (List.length m <= 200 -> List.length m' <= 200)%nat.
Proof. destruct 1; [trivial | intros _; apply firstn_le_length]. Qed.

Lemma one_push_pushed m m' : one_push m m' -> pushed m m'.
Proof. intros [-> | [r ->]]; repeat constructor. Qed.

Lemma one_push_refl m : one_push m m.
Proof. now left. Qed.

Lemma messages_pushMessage msg s :
  messages (pushMessage msg s) = firstn 200 (msg :: messages s).
Proof. reflexivity. Qed.

Lemma one_push_pushMessage msg s : one_push (messages s) (messages (pushMessage msg s)).
Proof. right. now exists msg. Qed.

Lemma messages_cleanup s : messages (cleanup s) = messages s.
Proof. unfold cleanup. now destruct (esRef s). Qed.

Lemma messages_connect_ok s : messages (connect None s) = messages s.
Proof. unfold connect. cbn. apply messages_cleanup. Qed.

Lemma one_push_connect ctor s : one_push (messages s) (messages (connect ctor s)).
Proof.
  destruct ctor as [err|].
  - unfold connect. rewrite messages_pushMessage. cbn [messages setStatusText].
    rewrite messages_cleanup. right. now eexists.
  - rewrite messages_connect_ok. apply one_push_refl.
Qed.

Lemma messages_transport_readyState r s :
  messages (transport_readyState r s) = messages s.
Proof. unfold transport_readyState. now destruct (esRef s). Qed.

Hint Resolve one_push_refl one_push_pushMessage one_push_connect : buffer.

Lemma one_push_onopen s : one_push (messages s) (messages (onopen s)).
Proof. unfold onopen. right. now eexists. Qed.

Lemma one_push_onerror s : one_push (messages s) (messages (onerror p s)).
Proof.
  unfold onerror. destruct (reconnectOnError p); cbn; right; now eexists.
Qed.

Hint Resolve one_push_onopen one_push_onerror : buffer.

Lemma one_push_dispatchEvent e s :
  one_push (messages s) (messages (dispatchEvent p e s)).
Proof.
  unfold dispatchEvent, onmessage, ontick, onheartbeat, onupdate.
  repeat match goal with
         | |- context [if ?b then _ else _] => destruct b
         end; auto with buffer.
Qed.

Lemma one_push_reconnect_check ctor s :
  one_push (messages s) (messages (reconnect_check ctor s)).
Proof.
  unfold reconnect_check.
  destruct (esRef s) as [es|]; [destruct (readyState es =? CLOSED)|];
    auto with buffer.
Qed.

Hint Resolve one_push_dispatchEvent one_push_reconnect_check : buffer.

(** One event puts at most one record in the buffer. *)
Lemma one_push_step e s : one_push (messages s) (messages (step p e s)).
Proof.
  destruct e; cbn [step]; auto with buffer.
  - unfold mountEffect. destruct (autoConnect s); auto with buffer.
  - rewrite messages_cleanup. auto with buffer.
  - unfold onopen. rewrite messages_pushMessage.
    cbn [messages setStatusText setConnected setAttempts set_attemptsRef].
    rewrite messages_transport_readyState. right. now eexists.
  - rewrite <- (messages_transport_readyState (if fatal then CLOSED else CONNECTING) s) at 1.
    auto with buffer.
  - unfold fire_timer. destruct (nth_error (timers s) i); auto with buffer.
    change (messages s) with (messages (set_timers (remove_nth i (timers s)) s)) at 1.
    auto with buffer.
  - unfold sendManual. destruct (JSON_parse (manualPayload s)); auto with buffer.
  - unfold sendManual_settled. destruct o as [err|st body];
      [|destruct (JSON_parse body)]; auto with buffer.
Qed.

Lemma pushed_run tr s : pushed (messages s) (messages (run p tr s)).
Proof.
  revert s; induction tr as [|e tr IH]; intros s; cbn [run fold_left].
  - constructor.
  - eapply pushed_trans; [apply one_push_pushed, one_push_step | apply IH].
Qed.

Lemma length_messages_run tr s :
  (List.length (messages s) <= 200 -> List.length (messages (run p tr s)) <= 200)%nat.
Proof. apply pushed_length, pushed_run. Qed.

Lemma messages_pushAll l s :
  (List.length (messages s) <= 200)%nat ->
  messages (pushAll l s) = firstn 200 (rev l ++ messages s).
Proof.
  revert s; induction l as [|m l IH]; intros s Hs; cbn [pushAll fold_left rev app].
  - symmetry. now apply firstn_all2.
  - fold (pushAll l (pushMessage m s)). rewrite IH.
    + rewrite messages_pushMessage, firstn_app_firstn by lia.
      now rewrite <- app_assoc.
    + rewrite messages_pushMessage. apply firstn_le_length.
Qed.

(** C4.  The event buffer never holds more than 200 records, whatever
    the events and after any insertion; an insertion puts the new record in
    front and cuts the list at 200; so after 250 insertions the buffer holds
    exactly the 200 records inserted last, newest first. *)
Theorem buffer_capped_newest_first
  (tr : list Event) (s : State) (l : list Message) :
  List.length l = 250%nat ->
  (List.length (messages (run p tr initialState)) <= 200)%nat
  /\ (forall msg,
        messages (pushMessage msg s) = firstn 200 (msg :: messages s)
        /\ (List.length (messages (pushMessage msg s)) <= 200)%nat)
  /\ messages (pushAll l s) = rev (skipn 50 l)
  /\ List.length (messages (pushAll l s)) = 200%nat.
Proof.
  intros Hl.
  assert (Hall : messages (pushAll l s) = rev (skipn 50 l)).
  { destruct l as [|m l]; [discriminate|].
    cbn [pushAll fold_left]. fold (pushAll l (pushMessage m s)).
    rewrite messages_pushAll by (rewrite messages_pushMessage; apply firstn_le_length).
    rewrite messages_pushMessage, firstn_app_firstn by lia.
    change (rev l ++ m :: messages s) with (rev l ++ [m] ++ messages s).
    rewrite app_assoc. change (rev l ++ [m]) with (rev (m :: l)).
    rewrite firstn_app, length_rev, Hl. cbn [Nat.sub].
    rewrite firstn_0, app_nil_r, firstn_rev, Hl. reflexivity. }
  repeat split.
  - apply length_messages_run. cbn. lia.
  - rewrite messages_pushMessage. apply firstn_le_length.
  - exact Hall.
  - rewrite Hall, length_rev, length_skipn, Hl. reflexivity.
Qed.

(** C10.  No event removes or changes a record of the buffer other than by
    the cut at 200 when a record is inserted: one event leaves the buffer as
    it is or puts one record in front of it, a sequence of events puts
    records in front of the ones that were there, and a disconnect, a
    connect and a disconnect followed by a connect leave it as it is. *)
Theorem history_only_grows (tr : list Event) (e : Event) (s : State) :
  (messages (step p e s) = messages s
   \/ exists r, messages (step p e s) = firstn 200 (r :: messages s))
  /\ (messages (run p tr s) = messages s
      \/ exists added, messages (run p tr s) = firstn 200 (added ++ messages s))
  /\ messages (step p EvDisconnect s) = messages s
  /\ messages (step p (EvConnect None) s) = messages s
  /\ messages (run p [EvDisconnect; EvConnect None] s) = messages s.
Proof.
  repeat split.
  - apply one_push_step.
  - apply pushed_explicit, pushed_run.
  - apply messages_cleanup.
  - apply messages_connect_ok.
  - cbn [run fold_left step]. now rewrite messages_connect_ok, messages_cleanup.
Qed.

End Buffer.

(** C4 on the 250 records [numbered 250], inserted into the empty buffer. *)
Lemma buffer_capped_newest_first_witness :
  List.length (numbered 250) = 250%nat
  /\ messages (pushAll (numbered 250) initialState) = rev (skipn 50 (numbered 250)).
Proof.
  split; [reflexivity|].
  exact (proj1 (proj2 (proj2
    (buffer_capped_newest_first defaultProps [] initialState (numbered 250) eq_refl)))).
Defined.

(** ** The reconnect counter *)

Section Counter.

Variable p : Props.

Lemma attemptsRef_dispatchEvent e s :
  attemptsRef (dispatchEvent p e s) =
  if String.eqb (ev_type e) "open" then 0
  else if String.eqb (ev_type e) "error" then attemptsRef s + 1
  else attemptsRef s.
Proof.
  unfold dispatchEvent.
  destruct (String.eqb_spec (ev_type e) "message") as [E|_]; [now rewrite E|].
  destruct (String.eqb_spec (ev_type e) "tick") as [E|_]; [now rewrite E|].
  destruct (String.eqb_spec (ev_type e) "heartbeat") as [E|_]; [now rewrite E|].
  destruct (String.eqb_spec (ev_type e) "update") as [E|_]; [now rewrite E|].
  destruct (String.eqb (ev_type e) "open"); [reflexivity|].
  destruct (String.eqb (ev_type e) "error"); [|reflexivity].
  unfold onerror. now destruct (reconnectOnError p).
Qed.

Lemma attempts_dispatchEvent e s :
  attempts (dispatchEvent p e s) =
  if String.eqb (ev_type e) "open" then 0
  else if String.eqb (ev_type e) "error" then attemptsRef s + 1
  else attempts s.
Proof.
  unfold dispatchEvent.
  destruct (String.eqb_spec (ev_type e) "message") as [E|_]; [now rewrite E|].
  destruct (String.eqb_spec (ev_type e) "tick") as [E|_]; [now rewrite E|].
  destruct (String.eqb_spec (ev_type e) "heartbeat") as [E|_]; [now rewrite E|].
  destruct (String.eqb_spec (ev_type e) "update") as [E|_]; [now rewrite E|].
  destruct (String.eqb (ev_type e) "open"); [reflexivity|].
  destruct (String.eqb (ev_type e) "error"); [|reflexivity].
  unfold onerror. now destruct (reconnectOnError p).
Qed.

Lemma attemptsRef_step e s :
  attemptsRef (step p e s) =
  if is_open e then 0 else if is_error e then attemptsRef s + 1 else attemptsRef s.
Proof.
  destruct e; cbn [is_open is_error step];
    try apply attemptsRef_dispatchEvent;
    unfold_component; split_cases; reflexivity.
Qed.

Lemma attempts_step e s :
  attempts (step p e s) =
  if is_open e then 0 else if is_error e then attemptsRef s + 1 else attempts s.
Proof.
  destruct e; cbn [is_open is_error step];
    try apply attempts_dispatchEvent;
    unfold_component; split_cases; reflexivity.
Qed.

Lemma run_app tr1 tr2 s : run p (tr1 ++ tr2) s = run p tr2 (run p tr1 s).
Proof. apply fold_left_app. Qed.

Lemma count_errors_cons e tr :
  count_errors (e :: tr) = (if is_error e then 1 else 0) + count_errors tr.
Proof.
  unfold count_errors. cbn [filter]. destruct (is_error e); cbn [List.length]; lia.
Qed.

Lemma attemptsRef_run_no_open tr s :
  no_open tr -> attemptsRef (run p tr s) = attemptsRef s + count_errors tr.
Proof.
  unfold no_open. revert s; induction tr as [|e tr IH]; intros s H; cbn [run fold_left].
  - unfold count_errors; cbn. lia.
  - cbn [forallb] in H. apply andb_true_iff in H as [He Htr].
    fold (run p tr (step p e s)). rewrite IH by assumption.
    rewrite attemptsRef_step, count_errors_cons.
    destruct (is_open e); [discriminate|]. destruct (is_error e); lia.
Qed.

(** The displayed count is the count of the ref once a handler has set
    it, and from the start. *)
Lemma attempts_run tr s :
  attempts s = attemptsRef s -> attempts (run p tr s) = attemptsRef (run p tr s).
Proof.
  revert s; induction tr as [|e tr IH]; intros s H; cbn [run fold_left]; [assumption|].
  apply IH. rewrite attempts_step, attemptsRef_step, H. reflexivity.
Qed.

(** C3.  The reconnect counter (the ref and the displayed count) is the
    number of times [es.onerror] ran since [es.onopen] last ran, or since the
    start when it never did; one run of [es.onerror] adds exactly 1, a run of
    [es.onopen] sets it to 0, and no other event changes it.  The handlers
    run on the transport's [open] and [error] and on a frame of that name. *)
Theorem counter_counts_errors_since_open
  (pre post : list Event) (o e : Event) (s : State) :
  is_open o = true ->
  no_open post ->
  attemptsRef (run p (pre ++ o :: post) s) = count_errors post
  /\ attempts (run p (pre ++ o :: post) s) = count_errors post
  /\ attemptsRef (run p post initialState) = count_errors post
  /\ attempts (run p post initialState) = count_errors post
  /\ (is_error e = true -> attemptsRef (step p e s) = attemptsRef s + 1)
  /\ (is_open e = true -> attemptsRef (step p e s) = 0)
  /\ (is_open e = false -> is_error e = false ->
      attemptsRef (step p e s) = attemptsRef s).
Proof.
  intros Ho Hpost.
  assert (H1 : attemptsRef (run p (pre ++ o :: post) s) = count_errors post).
  { rewrite run_app. cbn [run fold_left]. fold (run p post (step p o (run p pre s))).
    rewrite attemptsRef_run_no_open by assumption.
    rewrite attemptsRef_step, Ho. reflexivity. }
  assert (H2 : attemptsRef (run p post initialState) = count_errors post).
  { rewrite attemptsRef_run_no_open by assumption. reflexivity. }
  split; [exact H1|]. split.
  { rewrite <- H1, run_app. cbn [run fold_left].
    fold (run p post (step p o (run p pre s))).
    apply attempts_run. now rewrite attempts_step, attemptsRef_step, Ho. }
  split; [exact H2|]. split.
  { rewrite <- H2. now apply attempts_run. }
  split; [|split].
  - intros He. rewrite attemptsRef_step, He.
    destruct (is_open e) eqn:Eo; [|reflexivity].
    destruct e; try discriminate. cbn [is_open is_error] in *.
    apply String.eqb_eq in Eo. rewrite Eo in He. discriminate He.
  - intros Eo. now rewrite attemptsRef_step, Eo.
  - intros Eo He. now rewrite attemptsRef_step, Eo, He.
Qed.

End Counter.

(** C3 on: connect, an error, open, then an error, a disconnect, a
    frame named error and a frame named tick; the count is 2.  The same
    with a frame named open in the place of the transport's open. *)
Lemma counter_counts_errors_since_open_witness :
  is_open EvOpen = true
  /\ no_open [EvError false; EvDisconnect;
              EvFrame (mkEventFrame None (Some "error") "x");
              EvFrame (mkEventFrame None (Some "tick") "1")]
  /\ attemptsRef
       (run defaultProps
          ([EvConnect None; EvError false]
           ++ EvOpen :: [EvError false; EvDisconnect;
                         EvFrame (mkEventFrame None (Some "error") "x");
                         EvFrame (mkEventFrame None (Some "tick") "1")])
          initialState)
     = count_errors [EvError false; EvDisconnect;
                     EvFrame (mkEventFrame None (Some "error") "x");
                     EvFrame (mkEventFrame None (Some "tick") "1")]
  /\ count_errors [EvError false; EvDisconnect;
                   EvFrame (mkEventFrame None (Some "error") "x");
                   EvFrame (mkEventFrame None (Some "tick") "1")] = 2
  /\ attemptsRef
       (run defaultProps
          [EvConnect None; EvError false;
           EvFrame (mkEventFrame None (Some "open") "x"); EvError true]
          initialState) = 1.
Proof.
  split; [reflexivity|]. split; [reflexivity|]. split; [|split; reflexivity].
  exact (proj1 (counter_counts_errors_since_open defaultProps
                  [EvConnect None; EvError false]
                  [EvError false; EvDisconnect;
                   EvFrame (mkEventFrame None (Some "error") "x");
                   EvFrame (mkEventFrame None (Some "tick") "1")]
                  EvOpen EvDisconnect initialState eq_refl eq_refl)).
Defined.

(** ** Backoff and the reconnect timer *)

Section Reconnect.

Variable p : Props.




Lemma timers_onerror s :
  reconnectOnError p = true ->
  timers (onerror p s) = timers s ++ [backoff (attemptsRef s + 1)].
Proof. intros H. unfold onerror. rewrite H. reflexivity. Qed.

Lemma timers_transport_readyState r s : timers (transport_readyState r s) = timers s.
Proof. unfold transport_readyState. now destruct (esRef s). Qed.

Lemma attemptsRef_transport_readyState r s :
  attemptsRef (transport_readyState r s) = attemptsRef s.
Proof. unfold transport_readyState. now destruct (esRef s). Qed.

Lemma backoff_small n : 1 <= n <= 4 -> backoff n = 1000 * 2 ^ n.
Proof.
  intros H. assert (n = 1 \/ n = 2 \/ n = 3 \/ n = 4) as [-> | [-> | [-> | ->]]] by lia;
    reflexivity.
Qed.

Lemma backoff_capped n : 5 <= n -> backoff n = 30000.
Proof.
  intros H. unfold backoff.
  destruct (Z.eq_dec n 5) as [-> | Hn]; [reflexivity|].
  rewrite (Z.min_l 6 n) by lia. reflexivity.
Qed.

(** C2 (amended).  With automatic reconnection on, the error that brings
    the attempt count to [n >= 1] schedules the reconnect check after
    [min(30000, 1000 * 2^min(n, 6))] milliseconds; that is [1000 * 2^n] up
    to [n = 4] and 30000 from [n = 5] on, so for [n = 1..10] the delays are
    2000, 4000, 8000, 16000 and then 30000 six times. *)
Theorem backoff_delay (n : Z) (fatal : bool) (s : State) :
  1 <= n -> reconnectOnError p = true -> attemptsRef s = n - 1 ->
  timers (step p (EvError fatal) s)
    = timers s ++ [Z.min 30000 (1000 * 2 ^ Z.min n 6)]
  /\ backoff n = Z.min 30000 (1000 * 2 ^ Z.min n 6)
  /\ (n <= 4 -> backoff n = 1000 * 2 ^ n)
  /\ (5 <= n -> backoff n = 30000)
  /\ map backoff [1; 2; 3; 4; 5; 6; 7; 8; 9; 10]
     = [2000; 4000; 8000; 16000; 30000; 30000; 30000; 30000; 30000; 30000].
Proof.
  intros Hn Hp Hs.
  assert (Hb : backoff n = Z.min 30000 (1000 * 2 ^ Z.min n 6)).
  { unfold backoff. now rewrite (Z.min_comm 6 n). }
  split; [|split; [exact Hb | split; [|split]]].
  - cbn [step]. rewrite timers_onerror by assumption.
    rewrite timers_transport_readyState, attemptsRef_transport_readyState, Hs.
    replace (n - 1 + 1) with n by lia. now rewrite Hb.
  - intros H4. apply backoff_small. lia.
  - apply backoff_capped.
  - reflexivity.
Qed.


End Reconnect.

(** C2 on the third error in a row, with the default props. *)
Lemma backoff_delay_witness :
  1 <= 3 /\ reconnectOnError defaultProps = true
  /\ attemptsRef (run defaultProps [EvConnect None; EvError false; EvError false] initialState)
     = 3 - 1
  /\ timers (step defaultProps (EvError false)
               (run defaultProps [EvConnect None; EvError false; EvError false] initialState))
     = timers (run defaultProps [EvConnect None; EvError false; EvError false] initialState)
       ++ [Z.min 30000 (1000 * 2 ^ Z.min 3 6)].
Proof.
  split; [lia|]. split; [reflexivity|]. split; [reflexivity|].
  exact (proj1 (backoff_delay defaultProps 3 false
           (run defaultProps [EvConnect None; EvError false; EvError false] initialState)
           ltac:(lia) eq_refl eq_refl)).
Defined.

(** C2 as stated fails: the first error schedules the check after 2000 ms,
    not 1000 ms, and the delays for the attempts 1 to 10 are not the listed
    sequence. *)
Lemma backoff_sequence_counterexample :
  timers (run defaultProps [EvConnect None; EvError false] initialState) = [2000]
  /\ backoff 1 = Z.min 30000 (1000 * 2 ^ Z.min 1 6)
  /\ map backoff [1; 2; 3; 4; 5; 6; 7; 8; 9; 10]
     <> [1000; 2000; 4000; 8000; 16000; 30000; 30000; 30000; 30000; 30000].
Proof.
  split; [reflexivity|]. split; [reflexivity|].
  intros H. apply (f_equal (fun l => nth 0 l 0)) in H. vm_compute in H. discriminate H.
Qed.



(** ** Frames *)

Section Frames.

Variable p : Props.

Lemma dispatchEvent_unlistened e s :
  listened (ev_type e) = false ->
  dispatchEvent p e s =
  if String.eqb (ev_type e) "open" then onopen s
  else if String.eqb (ev_type e) "error" then onerror p s
  else s.
Proof.
  unfold listened, dispatchEvent. intros H.
  repeat (apply orb_false_iff in H; destruct H as [H ?]).
  repeat match goal with E : String.eqb _ _ = false |- _ => rewrite E; clear E end.
  reflexivity.
Qed.

Lemma dispatchEvent_listened e s :
  listened (ev_type e) = true ->
  exists r, dispatchEvent p e s = pushMessage r s
            /\ event r = Some (ev_type e)
            /\ data r = (if String.eqb (ev_type e) "heartbeat"
                         then JString (ev_data e) else parse_or_keep (ev_data e))
            /\ raw r = (if String.eqb (ev_type e) "heartbeat"
                        then None else Some (ev_data e)).
Proof.
  unfold listened, dispatchEvent. intros H.
  destruct (String.eqb_spec (ev_type e) "message") as [E|_];
    [rewrite E; eexists; repeat split|].
  destruct (String.eqb_spec (ev_type e) "tick") as [E|_];
    [rewrite E; eexists; repeat split|].
  destruct (String.eqb_spec (ev_type e) "heartbeat") as [E|_];
    [rewrite E; eexists; repeat split|].
  destruct (String.eqb_spec (ev_type e) "update") as [E|_];
    [rewrite E; eexists; repeat split|].
  discriminate H.
Qed.

(** The handlers for message, tick and update decode the payload when it is
    JSON and keep the text when it is not, and keep the text in [raw]. *)
Lemma decode_best_effort (e : MessageEvent) (s : State) :
  String.eqb (ev_type e) "heartbeat" = false ->
  listened (ev_type e) = true ->
  exists r, dispatchEvent p e s = pushMessage r s
            /\ raw r = Some (ev_data e)
            /\ data r = match JSON_parse (ev_data e) with
                        | inr v => v
                        | inl _ => JString (ev_data e)
                        end.
Proof.
  unfold listened, dispatchEvent. intros Hh H. rewrite Hh in *.
  destruct (String.eqb (ev_type e) "message"); [eexists; repeat split|].
  destruct (String.eqb (ev_type e) "tick"); [eexists; repeat split|].
  destruct (String.eqb (ev_type e) "update"); [eexists; repeat split|].
  discriminate H.
Qed.

(** C5 (amended).  A frame whose event type is one [connect] installs a
    frame listener for (message, tick, heartbeat, update) is turned into
    one record and pushed into the buffer: the record carries that type, the
    payload decoded (for heartbeat, the payload text) and the payload text
    in [raw] (none for heartbeat).
    A frame named open or error is no record of its own: it runs
    [es.onopen] or [es.onerror], the listeners of those types.  A frame of
    any other type reaches no listener and changes nothing.  A frame without
    a name has the type message, and is pushed. *)
Theorem frames_of_listened_types_are_pushed (f : EventFrame) (s : State) :
  (if listened (ev_type (toMessageEvent f))
   then exists r,
       step p (EvFrame f) s = pushMessage r s
       /\ event r = Some (ev_type (toMessageEvent f))
       /\ data r = (if String.eqb (ev_type (toMessageEvent f)) "heartbeat"
                    then JString (fr_rawPayload f)
                    else parse_or_keep (fr_rawPayload f))
       /\ raw r = (if String.eqb (ev_type (toMessageEvent f)) "heartbeat"
                   then None else Some (fr_rawPayload f))
   else if String.eqb (ev_type (toMessageEvent f)) "open"
        then step p (EvFrame f) s = onopen s
   else if String.eqb (ev_type (toMessageEvent f)) "error"
        then step p (EvFrame f) s = onerror p s
   else step p (EvFrame f) s = s)
  /\ listened (ev_type (toMessageEvent (mkEventFrame (fr_id f) None (fr_rawPayload f)))) = true
  /\ ev_type (toMessageEvent (mkEventFrame (fr_id f) None (fr_rawPayload f))) = "message".
Proof.
  split; [|split; reflexivity].
  cbn [step]. destruct (listened (ev_type (toMessageEvent f))) eqn:E.
  - apply (dispatchEvent_listened (toMessageEvent f) s E).
  - rewrite (dispatchEvent_unlistened (toMessageEvent f) s E).
    destruct (String.eqb (ev_type (toMessageEvent f)) "open"); [reflexivity|].
    destruct (String.eqb (ev_type (toMessageEvent f)) "error"); reflexivity.
Qed.

End Frames.

(** C5 as stated fails: with a handle open, a frame named status is not
    turned into a record; the buffer holds what it held.  A frame named
    error is not turned into a record of that name either: [es.onerror]
    runs, and sets a timer. *)
Lemma unlistened_frame_counterexample :
  let s := run defaultProps [EvConnect None; EvOpen] initialState in
  let f := mkEventFrame None (Some "status") "{}" in
  let g := mkEventFrame None (Some "error") "{}" in
  esRef s = Some (mkEventSource "http://localhost:3001/sse" false OPEN)
  /\ step defaultProps (EvFrame f) s = s
  /\ messages (step defaultProps (EvFrame f) s)
     = [note "__meta" "connected to http://localhost:3001"]
  /\ messages (step defaultProps (EvFrame g) s)
     = [note "__meta" "error (attempt 1)";
        note "__meta" "connected to http://localhost:3001"]
  /\ timers (step defaultProps (EvFrame g) s) = [2000].
Proof. cbv zeta. repeat split. Qed.

(** C9, the code at the failing input.  The payload with the one property
    [a] is JSON, and the handlers for message, tick and update record the
    object; the handler for heartbeat records the text, and no [raw].  A
    payload that is not JSON is recorded as its text by all four. *)
Theorem heartbeat_payload_not_decoded (p : Props) :
  JSON_parse a_is_1 = inr (JObject [("a", JNumber 1 0)])
  /\ map data (messages (dispatchEvent p (mkMessageEvent "message" a_is_1 "") initialState))
     = [JObject [("a", JNumber 1 0)]]
  /\ map data (messages (dispatchEvent p (mkMessageEvent "tick" a_is_1 "") initialState))
     = [JObject [("a", JNumber 1 0)]]
  /\ map data (messages (dispatchEvent p (mkMessageEvent "update" a_is_1 "") initialState))
     = [JObject [("a", JNumber 1 0)]]
  /\ messages (dispatchEvent p (mkMessageEvent "heartbeat" a_is_1 "") initialState)
     = [mkMessage None (Some "heartbeat") (JString a_is_1) None]
  /\ (forall t, listened t = true ->
      map data (messages (dispatchEvent p (mkMessageEvent t "not json" "") initialState))
      = [JString "not json"]).
Proof.
  repeat split.
  intros t Ht. unfold listened, dispatchEvent in *. cbn [ev_type].
  destruct (String.eqb t "message"); [reflexivity|].
  destruct (String.eqb t "tick"); [reflexivity|].
  destruct (String.eqb t "heartbeat"); [reflexivity|].
  destruct (String.eqb t "update"); [reflexivity|discriminate Ht].
Qed.

(** ** The side channel *)

Section SideChannel.

Variable p : Props.

(** C7.  When the payload text is not JSON, sending issues no request and
    pushes one record, of event manual-send-error, whose data is the text of
    the error the parse threw; the handle, the connected flag, the status
    text, both attempt counts, the timers and the handles opened stay as they
    were. *)
Theorem malformed_payload_sends_nothing (s : State) (err : JSError) :
  JSON_parse (manualPayload s) = inl err ->
  requests (step p EvSend s) = requests s
  /\ messages (step p EvSend s)
     = firstn 200 (mkMessage None (Some "manual-send-error")
                     (JString (String_of_error err)) None :: messages s)
  /\ esRef (step p EvSend s) = esRef s
  /\ connected (step p EvSend s) = connected s
  /\ statusText (step p EvSend s) = statusText s
  /\ attempts (step p EvSend s) = attempts s
  /\ attemptsRef (step p EvSend s) = attemptsRef s
  /\ timers (step p EvSend s) = timers s
  /\ opened (step p EvSend s) = opened s.
Proof.
  intros H. cbn [step]. unfold sendManual. rewrite H. repeat split.
Qed.

(** C8 (amended).  When the request settles, one record is pushed and
    nothing else changes.  A rejected [fetch] gives a manual-send-error
    record with the error's text.  A response is judged by its body alone,
    whatever its status: a body that is JSON gives a manual-send-result
    record with the parsed value, a body that is not gives a
    manual-send-error record with the text of the parse error. *)
Theorem send_outcome_by_body (o : FetchOutcome) (s : State) :
  (exists r, step p (EvFetchSettled o) s = pushMessage r s
     /\ match o with
        | FetchRejected err =>
            r = mkMessage None (Some "manual-send-error") (JString (String_of_error err)) None
        | FetchResponse status body =>
            match JSON_parse body with
            | inr json => r = mkMessage None (Some "manual-send-result") json None
            | inl err =>
                r = mkMessage None (Some "manual-send-error")
                      (JString (String_of_error err)) None
            end
        end)
  /\ (forall status status' body,
      step p (EvFetchSettled (FetchResponse status body)) s
      = step p (EvFetchSettled (FetchResponse status' body)) s).
Proof.
  split; [|reflexivity].
  cbn [step]. unfold sendManual_settled.
  destruct o as [err|status body]; [|destruct (JSON_parse body)];
    eexists; split; reflexivity.
Qed.

End SideChannel.

(** C7 on the payload text [not json]. *)
Lemma malformed_payload_sends_nothing_witness :
  JSON_parse (manualPayload (step defaultProps (EvPayload "not json") initialState))
  = inl (mkError "SyntaxError" "Unexpected token o in JSON at position 1")
  /\ requests (step defaultProps EvSend (step defaultProps (EvPayload "not json") initialState))
     = requests (step defaultProps (EvPayload "not json") initialState).
Proof.
  split; [reflexivity|].
  exact (proj1 (malformed_payload_sends_nothing defaultProps
                  (step defaultProps (EvPayload "not json") initialState)
                  (mkError "SyntaxError" "Unexpected token o in JSON at position 1")
                  eq_refl)).
Defined.

(** C8 as stated fails: a response of status 500 whose body is JSON is
    reported as a result, and a response of status 200 whose body is not JSON
    is reported as an error. *)
Lemma non_2xx_counterexample :
  messages (step defaultProps (EvFetchSettled (FetchResponse 500 "{}")) initialState)
  = [mkMessage None (Some "manual-send-result") (JObject []) None]
  /\ map event
       (messages (step defaultProps (EvFetchSettled (FetchResponse 200 "oops")) initialState))
     = [Some "manual-send-error"].
Proof. split; reflexivity. Qed.

(** ** The stream URL *)

Section StreamUrl.

Variable p : Props.

Lemma opened_step e s :
  opened (step p e s) = opened s
  \/ opened (step p e s) = opened s ++ ["http://localhost:3001/sse"].
Proof.
  destruct e; unfold_component; split_cases; auto.
Qed.

Lemma opened_run tr s :
  Forall (fun u => u = "http://localhost:3001/sse") (opened s) ->
  Forall (fun u => u = "http://localhost:3001/sse") (opened (run p tr s)).
Proof.
  revert s; induction tr as [|e tr IH]; intros s H; cbn [run fold_left]; [assumption|].
  apply IH. destruct (opened_step e s) as [-> | ->]; [assumption|].
  apply Forall_app. split; [assumption|]. now constructor.
Qed.

(** C6, the code on any props.  [connect] constructs the [EventSource] with
    the fixed text [http://localhost:3001/sse], whatever [url] and [token]
    are: every handle ever opened has that URL, without a query.  [buildUrl],
    which puts [t] and [clientId] in the query, is not called. *)
Theorem connect_opens_fixed_url (tr : list Event) (s : State) :
  esRef (step p (EvConnect None) s)
  = Some (mkEventSource "http://localhost:3001/sse" false CONNECTING)
  /\ Forall (fun u => u = "http://localhost:3001/sse") (opened (run p tr initialState))
  /\ opened (run (mkProps "/events" "abc" true) [EvMount None] initialState)
     = ["http://localhost:3001/sse"]
  /\ buildUrl (mkProps "/events" "abc" true) "http://localhost:3000" 42
     = "http://localhost:3000/events?t=abc&clientId=42".
Proof.
  split; [reflexivity|]. split; [|split; reflexivity].
  apply opened_run. constructor.
Qed.

End StreamUrl.

(** * Further properties *)

(** ** Disconnecting and the connected flag *)

Section Lifecycle.

Variable p : Props.

(** X1.  Disconnecting is idempotent, a disconnect right before a connect
    changes nothing of what the connect does, and a disconnect always ends
    with no handle tracked, the flag off and the status closed. *)
Theorem disconnect_idempotent (ctor : option JSError) (s : State) :
  step p EvDisconnect (step p EvDisconnect s) = step p EvDisconnect s
  /\ step p (EvConnect ctor) (step p EvDisconnect s) = step p (EvConnect ctor) s
  /\ esRef (step p EvDisconnect s) = None
  /\ connected (step p EvDisconnect s) = false
  /\ statusText (step p EvDisconnect s) = "closed".
Proof.
  cbn [step]. unfold connect, cleanup.
  destruct s as [c st m mp ac a [es|] ar t o r]; cbn; repeat split.
Qed.

Lemma flag_inv_step e s : flag_inv s -> flag_inv (step p e s).
Proof.
  unfold flag_inv. intros H.
  destruct e; cbn [step]; unfold_component; split_cases; cbn;
    try discriminate; auto.
Qed.

Lemma flag_inv_run tr s : flag_inv s -> flag_inv (run p tr s).
Proof.
  revert s; induction tr as [|e tr IH]; intros s H; cbn [run fold_left]; [assumption|].
  apply IH, flag_inv_step, H.
Qed.

(** X2.  After any sequence of events, the badge reads connected only
    when the status text is the open one and both attempt counts are 0. *)
Theorem badge_connected_means_open (tr : list Event) :
  badge (run p tr initialState) = "connected" ->
  statusText (run p tr initialState) = "open"
  /\ attempts (run p tr initialState) = 0
  /\ attemptsRef (run p tr initialState) = 0.
Proof.
  intros H. apply (flag_inv_run tr initialState).
  - intros C. discriminate C.
  - unfold badge in H. destruct (connected (run p tr initialState));
      [reflexivity | discriminate H].
Qed.

Lemma connected_step e s :
  deliverable e s = true ->
  (connected s = true -> tracked_open s = true) ->
  connected (step p e s) = true -> tracked_open (step p e s) = true.
Proof.
  unfold deliverable, live, tracked_open. intros D H.
  destruct e; cbn [step]; unfold_component; cbn in *;
    repeat match goal with
           | |- context [match ?x with _ => _ end] => destruct x eqn:?
           | H : context [match ?x with _ => _ end] |- _ => destruct x eqn:?
           end; cbn in *; try discriminate; try congruence; auto;
    repeat match goal with
           | E : Some _ = Some _ |- _ => inversion E; clear E; subst
           end; cbn in *; try reflexivity; try congruence;
    try (intro C; try specialize (H C); congruence).
Qed.

Lemma connected_run tr s :
  browser_run p tr s = true ->
  (connected s = true -> tracked_open s = true) ->
  connected (run p tr s) = true -> tracked_open (run p tr s) = true.
Proof.
  revert s; induction tr as [|e tr IH]; intros s B H; cbn [run fold_left]; [assumption|].
  cbn [browser_run] in B. apply andb_true_iff in B as [D B].
  apply IH; [assumption|]. now apply connected_step.
Qed.

(** X3.  On every sequence of events a browser can produce, the connected
    flag is on only while a handle is tracked whose [readyState] is [OPEN].
    (Not the other way round: a frame named error runs [es.onerror], which
    clears the flag while the handle stays [OPEN].) *)
Theorem connected_means_open_handle (tr : list Event) :
  browser_run p tr initialState = true ->
  connected (run p tr initialState) = true ->
  tracked_open (run p tr initialState) = true.
Proof. intros B. apply connected_run; [assumption | discriminate]. Qed.

Lemma opened_closes_step e s :
  (List.length (opened (step p e s)) + tracked s
   = List.length (opened s) + closes e s + tracked (step p e s))%nat.
Proof.
  unfold closes, tracked.
  destruct e; cbn [step]; unfold_component; cbn;
    repeat match goal with
           | |- context [match ?x with _ => _ end] => destruct x eqn:?
           end; cbn in *; rewrite ?length_app; cbn; try congruence; lia.
Qed.

Lemma opened_closes_run tr s :
  (List.length (opened (run p tr s)) + tracked s
   = List.length (opened s) + closes_in p tr s + tracked (run p tr s))%nat.
Proof.
  revert s; induction tr as [|e tr IH]; intros s; cbn [run fold_left closes_in]; [lia|].
  fold (run p tr (step p e s)).
  pose proof (IH (step p e s)). pose proof (opened_closes_step e s). lia.
Qed.

(** X4.  Every [EventSource] the component has constructed, other than
    the one it tracks, has had [close()] called on it by [cleanup]: the
    handles constructed are the handles closed plus the tracked one, so at
    most one handle is not released. *)
Theorem handles_constructed_are_released (tr : list Event) :
  List.length (opened (run p tr initialState))
  = (closes_in p tr initialState + tracked (run p tr initialState))%nat
  /\ (List.length (opened (run p tr initialState))
      <= closes_in p tr initialState + 1)%nat.
Proof.
  pose proof (opened_closes_run tr initialState) as H. cbn in H.
  assert (tracked (run p tr initialState) <= 1)%nat
    by (unfold tracked; destruct (esRef _); lia).
  lia.
Qed.

End Lifecycle.

(** X2 on: connect, then [open]. *)
Lemma badge_connected_means_open_witness :
  badge (run defaultProps [EvConnect None; EvOpen] initialState) = "connected"
  /\ statusText (run defaultProps [EvConnect None; EvOpen] initialState) = "open".
Proof.
  split; [reflexivity|].
  exact (proj1 (badge_connected_means_open defaultProps [EvConnect None; EvOpen] eq_refl)).
Defined.

(** X3 on: connect, [open], a frame, a frame named error, a frame named
    open, a fatal error, the timer, [open]. *)
Lemma connected_means_open_handle_witness :
  browser_run defaultProps
    [EvConnect None; EvOpen; EvFrame (mkEventFrame None None "1");
     EvFrame (mkEventFrame None (Some "error") "x");
     EvFrame (mkEventFrame None (Some "open") "x");
     EvError true; EvTimeout 0 None; EvOpen] initialState = true
  /\ connected
       (run defaultProps
          [EvConnect None; EvOpen; EvFrame (mkEventFrame None None "1");
           EvFrame (mkEventFrame None (Some "error") "x");
           EvFrame (mkEventFrame None (Some "open") "x");
           EvError true; EvTimeout 0 None; EvOpen] initialState) = true
  /\ tracked_open
       (run defaultProps
          [EvConnect None; EvOpen; EvFrame (mkEventFrame None None "1");
           EvFrame (mkEventFrame None (Some "error") "x");
           EvFrame (mkEventFrame None (Some "open") "x");
           EvError true; EvTimeout 0 None; EvOpen] initialState) = true.
Proof.
  split; [reflexivity|]. split; [reflexivity|].
  exact (connected_means_open_handle defaultProps
           [EvConnect None; EvOpen; EvFrame (mkEventFrame None None "1");
            EvFrame (mkEventFrame None (Some "error") "x");
            EvFrame (mkEventFrame None (Some "open") "x");
            EvError true; EvTimeout 0 None; EvOpen] eq_refl eq_refl).
Defined.

(** ** The reconnect timer *)

Section Timer.

Variable p : Props.

Lemma esRef_onerror s : esRef (onerror p s) = esRef s.
Proof. unfold onerror. now destruct (reconnectOnError p). Qed.

Lemma step_error_handle fatal s es :
  esRef s = Some es ->
  esRef (step p (EvError fatal) s)
  = Some (mkEventSource (es_url es) (withCredentials es)
            (if fatal then CLOSED else CONNECTING)).
Proof.
  intros H. cbn [step]. rewrite esRef_onerror. unfold transport_readyState.
  now rewrite H.
Qed.

Lemma opened_connect_ok s :
  opened (connect None s) = opened s ++ ["http://localhost:3001/sse"].
Proof. unfold connect, cleanup. now destruct (esRef s). Qed.

Lemma live_step_error fatal s es :
  esRef s = Some es -> live (step p (EvError fatal) s) = negb fatal.
Proof.
  intros H. unfold live. rewrite (step_error_handle fatal s es H).
  now destruct fatal.
Qed.

(** X5.  What a timer does is decided by the state it fires in, not by
    the error that set it.  Its callback reconnects exactly when no handle
    is tracked or the tracked handle is [CLOSED] at that moment; then, if the
    constructor returns, one new [EventSource] is constructed and tracked.
    While a handle that is not [CLOSED] is tracked the timer only expires:
    the handle stays and none is constructed.  Right after an error the
    tracked handle is [CLOSED] when the error was fatal and [CONNECTING]
    when the browser retries by itself. *)
Theorem timer_reconnects_iff_handle_gone
  (i : nat) (d : Z) (ctor : option JSError) (s : State) :
  nth_error (timers s) i = Some d ->
  step p (EvTimeout i ctor) s
  = (if live s then set_timers (remove_nth i (timers s)) s
     else connect ctor (set_timers (remove_nth i (timers s)) s))
  /\ opened (step p (EvTimeout i None) s)
     = (if live s then opened s else opened s ++ ["http://localhost:3001/sse"])
  /\ esRef (step p (EvTimeout i None) s)
     = (if live s then esRef s
        else Some (mkEventSource "http://localhost:3001/sse" false CONNECTING))
  /\ (forall fatal es, esRef s = Some es ->
      live (step p (EvError fatal) s) = negb fatal).
Proof.
  intros Hd.
  assert (Hfire : forall c,
             step p (EvTimeout i c) s
             = if live s then set_timers (remove_nth i (timers s)) s
               else connect c (set_timers (remove_nth i (timers s)) s)).
  { intros c. cbn [step]. unfold fire_timer, reconnect_check, live. rewrite Hd.
    cbn [esRef set_timers].
    destruct (esRef s) as [es|]; [|reflexivity].
    now destruct (readyState es =? CLOSED). }
  split; [apply Hfire|]. rewrite Hfire.
  split; [|split].
  - destruct (live s); [reflexivity|]. now rewrite opened_connect_ok.
  - destruct (live s); reflexivity.
  - intros fatal es Hes. now apply live_step_error with es.
Qed.

Lemma live_fire_timer i s :
  (exists d, nth_error (timers s) i = Some d) ->
  live (step p (EvTimeout i None) s) = true.
Proof.
  intros [d Hd]. cbn [step]. unfold fire_timer. rewrite Hd.
  unfold reconnect_check, live. cbn [esRef set_timers].
  destruct (esRef s) as [es|] eqn:E; [|reflexivity].
  destruct (readyState es =? CLOSED) eqn:C; [reflexivity|].
  cbn [esRef set_timers]. now rewrite E, C.
Qed.

Lemma fire_timer_live j c s :
  live s = true ->
  (exists d, nth_error (timers s) j = Some d) ->
  step p (EvTimeout j c) s = set_timers (remove_nth j (timers s)) s.
Proof.
  unfold live. intros L [d Hd]. cbn [step]. unfold fire_timer. rewrite Hd.
  unfold reconnect_check. cbn [esRef set_timers].
  destruct (esRef s) as [es|]; [|discriminate].
  now destruct (readyState es =? CLOSED).
Qed.

(** X6.  Pending timers do not pile up connections: once a timer has fired
    and the constructor did not throw, a handle that is not [CLOSED] is
    tracked, and any other pending timer that fires next only expires; it
    constructs no [EventSource]. *)
Theorem pending_timers_reconnect_once
  (i j : nat) (d d' : Z) (c : option JSError) (s : State) :
  nth_error (timers s) i = Some d ->
  nth_error (timers (step p (EvTimeout i None) s)) j = Some d' ->
  live (step p (EvTimeout i None) s) = true
  /\ step p (EvTimeout j c) (step p (EvTimeout i None) s)
     = set_timers (remove_nth j (timers (step p (EvTimeout i None) s)))
         (step p (EvTimeout i None) s)
  /\ opened (step p (EvTimeout j c) (step p (EvTimeout i None) s))
     = opened (step p (EvTimeout i None) s).
Proof.
  intros Hi Hj.
  assert (L : live (step p (EvTimeout i None) s) = true)
    by (apply live_fire_timer; eauto).
  assert (F : step p (EvTimeout j c) (step p (EvTimeout i None) s)
              = set_timers (remove_nth j (timers (step p (EvTimeout i None) s)))
                  (step p (EvTimeout i None) s))
    by (apply fire_timer_live; eauto).
  split; [exact L|]. split; [exact F|]. now rewrite F.
Qed.

Lemma no_timer_step e s :
  reconnectOnError p = false -> timers s = [] ->
  timers (step p e s) = []
  /\ (List.length (opened (step p e s))
      <= List.length (opened s) + (if is_connect e then 1 else 0))%nat.
Proof.
  intros Hp Ht.
  destruct e; cbn [step is_connect]; unfold_component; rewrite ?Hp, ?Ht;
    try (destruct i; cbn [nth_error]);
    split_cases; cbn; rewrite ?length_app; cbn; split; try assumption; lia.
Qed.

(** X7.  With [reconnectOnError] off the component never sets a timer,
    so it never reconnects by itself: after any sequence of events no timer
    is pending, and no more [EventSource]s were constructed than there were
    clicks on Connect and runs of the mount effect. *)
Theorem no_reconnect_when_disabled (tr : list Event) :
  reconnectOnError p = false ->
  timers (run p tr initialState) = []
  /\ (List.length (opened (run p tr initialState))
      <= List.length (filter is_connect tr))%nat.
Proof.
  intros Hp.
  assert (G : forall tr s, timers s = [] ->
            timers (run p tr s) = []
            /\ (List.length (opened (run p tr s))
                <= List.length (opened s) + List.length (filter is_connect tr))%nat).
  { clear tr. induction tr as [|e tr IH]; intros s Ht; cbn [run fold_left filter].
    - split; [assumption | cbn; lia].
    - destruct (no_timer_step e s Hp Ht) as [Ht' Ho].
      destruct (IH (step p e s) Ht') as [Hr Hl]. fold (run p tr (step p e s)).
      split; [assumption|]. destruct (is_connect e); cbn [List.length]; lia. }
  destruct (G tr initialState eq_refl) as [H1 H2]. split; [assumption|].
  cbn in H2. lia.
Qed.

End Timer.

(** X5 on: connect, [open], an error the browser retries after, a
    disconnect, and then the timer: no handle is tracked when it fires, so it
    reconnects.  And on: connect, a fatal error, a click on Connect, and then
    the timer: a handle that is not closed is tracked, so it only expires. *)
Lemma timer_reconnects_iff_handle_gone_witness :
  nth_error
    (timers (run defaultProps [EvConnect None; EvOpen; EvError false; EvDisconnect]
               initialState)) 0 = Some 2000
  /\ opened
       (step defaultProps (EvTimeout 0 None)
          (run defaultProps [EvConnect None; EvOpen; EvError false; EvDisconnect]
             initialState))
     = ["http://localhost:3001/sse"; "http://localhost:3001/sse"]
  /\ opened
       (step defaultProps (EvTimeout 0 None)
          (run defaultProps [EvConnect None; EvError true; EvConnect None] initialState))
     = ["http://localhost:3001/sse"; "http://localhost:3001/sse"].
Proof.
  split; [reflexivity|]. split.
  - exact (proj1 (proj2
      (timer_reconnects_iff_handle_gone defaultProps 0 2000 None
         (run defaultProps [EvConnect None; EvOpen; EvError false; EvDisconnect]
            initialState) eq_refl))).
  - exact (proj1 (proj2
      (timer_reconnects_iff_handle_gone defaultProps 0 2000 None
         (run defaultProps [EvConnect None; EvError true; EvConnect None] initialState)
         eq_refl))).
Defined.

(** X6 on two timers left by two fatal errors. *)
Lemma pending_timers_reconnect_once_witness :
  nth_error
    (timers (run defaultProps [EvConnect None; EvError true; EvError true] initialState)) 0
  = Some 2000
  /\ nth_error
       (timers
          (step defaultProps (EvTimeout 0 None)
             (run defaultProps [EvConnect None; EvError true; EvError true] initialState))) 0
     = Some 4000
  /\ live
       (step defaultProps (EvTimeout 0 None)
          (run defaultProps [EvConnect None; EvError true; EvError true] initialState))
     = true.
Proof.
  split; [reflexivity|]. split; [reflexivity|].
  exact (proj1
    (pending_timers_reconnect_once defaultProps 0 0 2000 4000 None
       (run defaultProps [EvConnect None; EvError true; EvError true] initialState)
       eq_refl eq_refl)).
Defined.

(** X7 on the props with [reconnectOnError] off. *)
Lemma no_reconnect_when_disabled_witness :
  reconnectOnError (mkProps "/sse" EmptyString false) = false
  /\ timers
       (run (mkProps "/sse" EmptyString false)
          [EvConnect None; EvError true; EvError false; EvTimeout 0 None] initialState)
     = [].
Proof.
  split; [reflexivity|].
  exact (proj1
    (no_reconnect_when_disabled (mkProps "/sse" EmptyString false)
       [EvConnect None; EvError true; EvError false; EvTimeout 0 None] eq_refl)).
Defined.

(** ** The status text and the delays *)

Section Status.

Variable p : Props.

Ltac in_statuses :=
  cbn [In statuses]; repeat first [left; reflexivity | right].

Lemma backoff_table n :
  0 <= n ->
  backoff n = if n =? 0 then 1000 else if n =? 1 then 2000
              else if n =? 2 then 4000 else if n =? 3 then 8000
              else if n =? 4 then 16000 else 30000.
Proof.
  intros H.
  destruct (Z.eqb_spec n 0) as [->|]; [reflexivity|].
  destruct (Z.eqb_spec n 1) as [->|]; [reflexivity|].
  destruct (Z.eqb_spec n 2) as [->|]; [reflexivity|].
  destruct (Z.eqb_spec n 3) as [->|]; [reflexivity|].
  destruct (Z.eqb_spec n 4) as [->|]; [reflexivity|].
  apply backoff_capped. lia.
Qed.

Lemma retry_text n :
  1 <= n ->
  In ("retrying in " ++ String_of_Z (Math_round_div (backoff n) 1000) ++ "s")%string
    statuses.
Proof.
  intros H. rewrite backoff_table by lia.
  destruct (Z.eqb_spec n 0); [lia|].
  destruct (n =? 1); [in_statuses|].
  destruct (n =? 2); [in_statuses|].
  destruct (n =? 3); [in_statuses|].
  destruct (n =? 4); in_statuses.
Qed.

Lemma status_inv_step e s : status_inv p s -> status_inv p (step p e s).
Proof.
  unfold status_inv. intros (Hn & Hin & Herr).
  destruct e; cbn [step]; unfold_component;
    repeat match goal with
           | |- context [match ?x with _ => _ end] => destruct x eqn:?
           end; cbn [attemptsRef statusText setConnected setStatusText setMessages
                       setManualPayload setAutoConnect setAttempts set_esRef
                       set_attemptsRef set_timers log_opened fetch];
    (split; [lia|]);
    (split; [first [assumption | apply retry_text; lia | in_statuses]|]);
    first [assumption | intros; discriminate].
Qed.

Lemma status_inv_run tr s : status_inv p s -> status_inv p (run p tr s).
Proof.
  revert s; induction tr as [|e tr IH]; intros s H; cbn [run fold_left]; [assumption|].
  apply IH, status_inv_step, H.
Qed.

(** X8.  After any sequence of events the status text is one of eleven
    texts: idle, connecting..., open, error, closed, failed to create
    EventSource, or retrying in 2s, 4s, 8s, 16s or 30s.  With
    [reconnectOnError] on, the plain error text is never what an event
    leaves: the retry text replaces it in the same handler. *)
Theorem status_text_is_known (tr : list Event) :
  In (statusText (run p tr initialState)) statuses
  /\ (reconnectOnError p = true -> statusText (run p tr initialState) <> "error").
Proof.
  apply (status_inv_run tr initialState).
  unfold status_inv. cbn. repeat split; [lia | auto | discriminate].
Qed.

(** X9.  From the attempt count 0 on, the delay is at least one second and
    at most thirty, it never decreases when the count grows, and it is a
    whole number of seconds, so the seconds of the retry text are the
    delay. *)
Theorem backoff_monotone_bounded (n m : Z) :
  0 <= n -> n <= m ->
  1000 <= backoff n /\ backoff n <= backoff m /\ backoff m <= 30000
  /\ Math_round_div (backoff n) 1000 * 1000 = backoff n.
Proof.
  intros Hn Hm. rewrite (backoff_table n), (backoff_table m) by lia.
  destruct (Z.eqb_spec n 0); destruct (Z.eqb_spec n 1); destruct (Z.eqb_spec n 2);
    destruct (Z.eqb_spec n 3); destruct (Z.eqb_spec n 4); try lia;
    destruct (Z.eqb_spec m 0); destruct (Z.eqb_spec m 1); destruct (Z.eqb_spec m 2);
    destruct (Z.eqb_spec m 3); destruct (Z.eqb_spec m 4); try lia;
    (split; [lia | split; [lia | split; [lia | reflexivity]]]).
Qed.

End Status.

(** X9 on the attempt counts 2 and 7. *)
Lemma backoff_monotone_bounded_witness :
  0 <= 2 /\ 2 <= 7 /\ backoff 2 <= backoff 7.
Proof.
  split; [lia|]. split; [lia|].
  exact (proj1 (proj2 (backoff_monotone_bounded 2 7 ltac:(lia) ltac:(lia)))).
Defined.

(** ** What the buffer holds *)

Section Records.

Variable p : Props.

Lemma Forall_firstn (A : Type) (P : A -> Prop) (n : nat) (l : list A) :
  Forall P l -> Forall P (firstn n l).
Proof.
  intros H. revert n; induction H as [|x l Hx Hl IH]; intros [|n];
    rewrite ?firstn_0, ?firstn_nil, ?firstn_cons; constructor; auto.
Qed.

Lemma well_formed_step e s :
  messages (step p e s) = messages s
  \/ exists r, (well_formed r /\ Some (label r) = event r)
               /\ messages (step p e s) = firstn 200 (r :: messages s).
Proof.
  destruct e; cbn [step]; unfold_component; split_cases; cbn;
    first [ now left
          | right; eexists; split; [|reflexivity];
            unfold well_formed, label; cbn; repeat split; discriminate ].
Qed.

(** X10.  Every record in the buffer names its event, so the rendering
    never falls back on its default label; and a record that keeps the
    payload text in [raw] has as [data] that text decoded, or the text itself
    when it is not JSON. *)
Theorem buffer_records_well_formed (tr : list Event) :
  Forall (fun m => well_formed m /\ Some (label m) = event m)
    (messages (run p tr initialState)).
Proof.
  assert (G : forall tr s,
            Forall (fun m => well_formed m /\ Some (label m) = event m) (messages s) ->
            Forall (fun m => well_formed m /\ Some (label m) = event m)
              (messages (run p tr s))).
  { clear tr. induction tr as [|e tr IH]; intros s H; cbn [run fold_left]; [assumption|].
    apply IH. destruct (well_formed_step e s) as [-> | (r & Hr & ->)]; [assumption|].
    apply Forall_firstn. now constructor. }
  apply G. constructor.
Qed.

(** X11.  The buffer is never emptied: once a record is shown, the
    placeholder for an empty list does not come back, whatever happens
    next. *)
Theorem placeholder_never_returns (tr : list Event) (s : State) :
  noEventsYet s = false -> noEventsYet (run p tr s) = false.
Proof.
  unfold noEventsYet. intros H.
  destruct (pushed_explicit _ _ (pushed_run p tr s)) as [-> | [added ->]];
    [assumption|].
  destruct (messages s) as [|m ms]; [discriminate|].
  destruct added as [|a added]; cbn [app]; change 200%nat with (S 199);
    now rewrite firstn_cons.
Qed.

End Records.

(** X11 on the state after a connect that threw, then a disconnect and a
    connect. *)
Lemma placeholder_never_returns_witness :
  noEventsYet (step defaultProps (EvConnect (Some (mkError "SyntaxError" "bad URL")))
                 initialState) = false
  /\ noEventsYet
       (run defaultProps [EvDisconnect; EvConnect None]
          (step defaultProps (EvConnect (Some (mkError "SyntaxError" "bad URL")))
             initialState)) = false.
Proof.
  split; [reflexivity|].
  exact (placeholder_never_returns defaultProps [EvDisconnect; EvConnect None]
           (step defaultProps (EvConnect (Some (mkError "SyntaxError" "bad URL")))
              initialState) eq_refl).
Defined.

(** ** What frames and the side channel leave alone *)

Section Frame.

Variable p : Props.

(** X12.  A frame that runs neither [es.onopen] nor [es.onerror] (any
    name but open and error, a heartbeat included) changes nothing but the
    buffer: it leaves the handle, the connected flag, the status text, both
    attempt counts, the pending timers and the requests as they were. *)
Theorem frame_touches_only_buffer (f : EventFrame) (s : State) :
  is_open (EvFrame f) = false ->
  is_error (EvFrame f) = false ->
  exists m, step p (EvFrame f) s = setMessages (fun _ => m) s.
Proof.
  cbn [step is_open is_error]. intros Ho He.
  unfold dispatchEvent, onmessage, ontick, onheartbeat, onupdate, pushMessage.
  rewrite Ho, He.
  destruct s as [c st ms mp ac a es ar t o r].
  split_cases; eexists; reflexivity.
Qed.

(** X13.  The side channel never touches the connection.  A click on
    Send either sends exactly one request, a POST to the broadcast URL with
    the JSON content type, and changes nothing else, or changes only the
    buffer; the settling of a request changes only the buffer, whatever the
    outcome. *)
Theorem side_channel_touches_no_connection (o : FetchOutcome) (s : State) :
  ((exists r, broadcast_request r /\ step p EvSend s = fetch r s)
   \/ (exists m, step p EvSend s = setMessages (fun _ => m) s))
  /\ (exists m, step p (EvFetchSettled o) s = setMessages (fun _ => m) s).
Proof.
  cbn [step]. unfold sendManual, sendManual_settled, pushMessage. split.
  - destruct (JSON_parse (manualPayload s)) as [err|body].
    + right. destruct s; eexists; reflexivity.
    + left. eexists. split; [|reflexivity]. repeat split.
  - destruct s as [c st ms mp ac a es ar t op r].
    destruct o as [err|status body]; [|destruct (JSON_parse body)];
      eexists; reflexivity.
Qed.

Lemma requests_step e s :
  requests (step p e s) = requests s
  \/ (is_send e = true
      /\ exists r, broadcast_request r /\ requests (step p e s) = requests s ++ [r]).
Proof.
  destruct e; cbn [step is_send]; unfold_component; split_cases; cbn;
    first [ now left
          | right; split; [reflexivity|]; eexists; split; [|reflexivity];
            repeat split ].
Qed.

(** X14.  Every request the component ever sends is a POST to the
    broadcast URL with the JSON content type, and it sends at most one per
    click on Send: no other event sends anything. *)
Theorem requests_are_broadcasts (tr : list Event) :
  Forall broadcast_request (requests (run p tr initialState))
  /\ (List.length (requests (run p tr initialState))
      <= List.length (filter is_send tr))%nat.
Proof.
  assert (G : forall tr s,
            Forall broadcast_request (requests s) ->
            Forall broadcast_request (requests (run p tr s))
            /\ (List.length (requests (run p tr s))
                <= List.length (requests s) + List.length (filter is_send tr))%nat).
  { clear tr. induction tr as [|e tr IH]; intros s H; cbn [run fold_left filter].
    - split; [assumption | cbn; lia].
    - fold (run p tr (step p e s)).
      destruct (requests_step e s) as [E | (Hs & r & Hr & E)].
      + destruct (IH (step p e s)) as [F L]; [now rewrite E|].
        split; [assumption|]. rewrite E in L.
        destruct (is_send e); cbn [List.length]; lia.
      + destruct (IH (step p e s)) as [F L].
        { rewrite E. apply Forall_app. split; [assumption | now constructor]. }
        split; [assumption|]. rewrite E, length_app in L. rewrite Hs.
        cbn [List.length] in *. lia. }
  destruct (G tr initialState) as [F L]; [constructor|].
  split; [assumption|]. cbn in L. lia.
Qed.

End Frame.

(** X12 on a heartbeat frame, with a handle open. *)
Lemma frame_touches_only_buffer_witness :
  is_open (EvFrame (mkEventFrame None (Some "heartbeat") "ping")) = false
  /\ is_error (EvFrame (mkEventFrame None (Some "heartbeat") "ping")) = false
  /\ exists m,
       step defaultProps (EvFrame (mkEventFrame None (Some "heartbeat") "ping"))
         (run defaultProps [EvConnect None; EvOpen] initialState)
       = setMessages (fun _ => m) (run defaultProps [EvConnect None; EvOpen] initialState).
Proof.
  split; [reflexivity|]. split; [reflexivity|].
  exact (frame_touches_only_buffer defaultProps
           (mkEventFrame None (Some "heartbeat") "ping")
           (run defaultProps [EvConnect None; EvOpen] initialState) eq_refl eq_refl).
Defined.
